(** * datashuttle: subject / session naming, validation and number suggestion

    A shallow embedding of the naming code of the repository:
    - [manager/utils.py]: [ensure_prefixes_on_list_of_names], [process_names];
    - [datashuttle/utils/getters.py]: [get_next_sub_or_ses_number],
      [get_max_sub_or_ses_num_and_value_length], [get_all_sub_and_ses_names];
    - [datashuttle/configs/canonical_configs.py]: [get_name_templates_defaults];
    - the helpers of [datashuttle.utils.utils], [datashuttle.utils.validation]
      and the tag expansion, which the repository imports but whose files are
      not part of the sources at hand: these are modelled from the
      specification and from the integration tests, and are marked as such. *)

From Stdlib Require Import ZArith NArith Ascii String List Lia Bool.
From stdpp Require Import base option list sets gmap strings sorting.

Local Open Scope Z_scope.

(** ** Python built-ins used by the code *)

Module Py.

(** [len(s)] *)
Definition len (s : string) : nat := String.length s.

(** [s[:n]]: the first [n] characters, or all of [s] when it is shorter. *)
Definition slice_to (n : nat) (s : string) : string := String.substring 0 n s.

(** [s.startswith(p)] *)
Definition startswith (p s : string) : bool := String.prefix p s.

Definition is_digit (c : ascii) : bool :=
  match Ascii.is_nat c with Some _ => true | None => false end.

Definition digit_val (c : ascii) : N :=
  match Ascii.is_nat c with Some d => N.of_nat d | None => 0%N end.

Definition digit_char (d : N) : ascii := ascii_of_N (48 + d).

Fixpoint all_digits (s : string) : bool :=
  match s with
  | EmptyString => true
  | String c s' => is_digit c && all_digits s'
  end.

(** Decimal digits of a natural number, most significant first. The fuel is
    the binary size of the number, which bounds its decimal size. *)
Fixpoint str_of_N_aux (fuel : nat) (n : N) (acc : string) : string :=
  match fuel with
  | O => acc
  | S f =>
      let acc' := String (digit_char (n mod 10)) acc in
      if (n / 10 =? 0)%N then acc' else str_of_N_aux f (n / 10) acc'
  end.

Definition str_of_N (n : N) : string :=
  str_of_N_aux (S (N.to_nat (N.log2 n))) n EmptyString.

(** [str(i)] for a Python [int]. *)
Definition str (i : Z) : string :=
  match i with
  | Z0 => "0"
  | Zpos p => str_of_N (Npos p)
  | Zneg p => String "-" (str_of_N (Npos p))
  end.

(** Value of a run of decimal digits, read left to right. *)
Fixpoint digits_value (acc : N) (s : string) : N :=
  match s with
  | EmptyString => acc
  | String c s' => digits_value (10 * acc + digit_val c) s'
  end.

Fixpoint zeros (n : nat) : string :=
  match n with
  | O => EmptyString
  | S n' => String "0" (zeros n')
  end.

(** [s.zfill(width)]: pad on the left with ["0"] up to [width]; a leading
    sign stays in front of the padding; a string that is already long enough
    is returned as it is. *)
Definition zfill (s : string) (width : Z) : string :=
  if Z.of_nat (len s) >=? width then s
  else
    let fill := Z.to_nat (width - Z.of_nat (len s)) in
    match s with
    | String c rest =>
        if (Ascii.eqb c "+" || Ascii.eqb c "-")%bool
        then String c (zeros fill +:+ rest)
        else zeros fill +:+ s
    | EmptyString => zeros fill
    end.

(** [sub in s]: substring containment, as a proposition and as a test. *)
Definition contains (sub s : string) : Prop :=
  exists pre post, s = pre +:+ sub +:+ post.


(** [s.split(sep)] for a one-character separator. *)
Fixpoint split (sep : ascii) (s : string) : list string :=
  match s with
  | EmptyString => [EmptyString]
  | String c s' =>
      if Ascii.eqb c sep then EmptyString :: split sep s'
      else match split sep s' with
           | [] => [String c EmptyString]
           | w :: ws => String c w :: ws
           end
  end.

(** [sep.join(parts)] *)
Fixpoint join (sep : string) (parts : list string) : string :=
  match parts with
  | [] => EmptyString
  | [p] => p
  | p :: ps => p +:+ sep +:+ join sep ps
  end.

(** [s.partition(sep)] on the first occurrence of a one-character
    separator: [None] when the separator does not occur. *)
Fixpoint partition (sep : ascii) (s : string) : option (string * string) :=
  match s with
  | EmptyString => None
  | String c s' =>
      if Ascii.eqb c sep then Some (EmptyString, s')
      else match partition sep s' with
           | Some (a, b) => Some (String c a, b)
           | None => None
           end
  end.

(** [s.replace(old, new)]: every non-overlapping occurrence, left to right.
    The fuel is the length of the string. *)
Fixpoint drop (n : nat) (s : string) : string :=
  match n, s with
  | O, _ => s
  | S n', String _ s' => drop n' s'
  | S _, EmptyString => EmptyString
  end.

Fixpoint replace_aux (fuel : nat) (old new s : string) : string :=
  match fuel with
  | O => s
  | S f =>
      if String.prefix old s
      then new +:+ replace_aux f old new (drop (len old) s)
      else match s with
           | EmptyString => EmptyString
           | String c s' => String c (replace_aux f old new s')
           end
  end.

(** The tokens replaced by the code are never empty; for an empty [old]
    Python interleaves [new], which the code never does. *)
Definition replace (old new s : string) : string :=
  match old with
  | EmptyString => s
  | _ => replace_aux (S (len s)) old new s
  end.

(** [max(l)] of a list of ints: [None] on the empty list (Python raises). *)
Fixpoint max (l : list Z) : option Z :=
  match l with
  | [] => None
  | x :: l' => match max l' with
               | None => Some x
               | Some y => Some (Z.max x y)
               end
  end.

End Py.

(** ** Exceptions and warnings

    The code raises exceptions ([utils.raise_error], [assert]) and emits
    warnings ([warnings.warn]) that do not stop it. A computation is run to
    the warnings it has emitted and either the exception that stopped it or
    its value. *)

Inductive exn : Type :=
| NeuroBlueprintError (msg : string)
| AssertionError (msg : string)
| BaseException (msg : string).

Record run (E W A : Type) : Type := Run { warned : list W; outcome : E + A }.
Arguments Run {E W A} _ _.
Arguments warned {E W A} _.
Arguments outcome {E W A} _.

Definition ret {E W A} (a : A) : run E W A := Run [] (inr a).
Definition raise {E W A} (e : E) : run E W A := Run [] (inl e).
Definition warn {E W} (w : W) : run E W unit := Run [w] (inr tt).

Definition bind {E W A B} (m : run E W A) (k : A -> run E W B) : run E W B :=
  match outcome m with
  | inl e => Run (warned m) (inl e)
  | inr a => let r := k a in Run (warned m ++ warned r) (outcome r)
  end.

Declare Scope run_scope.
Delimit Scope run_scope with run.
Notation "x <- m ;; k" := (bind m (fun x => k))
  (at level 100, m at next level, right associativity) : run_scope.
Notation "m ;;; k" := (bind m (fun _ => k))
  (at level 100, right associativity) : run_scope.
Local Open Scope run_scope.

Fixpoint for_each {E W A B} (f : A -> run E W B) (l : list A) : run E W (list B) :=
  match l with
  | [] => ret []
  | a :: l' => b <- f a ;; bs <- for_each f l' ;; ret (b :: bs)
  end.

(** The code of the getters raises Python exceptions and warns with text. *)
Abbreviation pyrun := (run exn string).

(** ** Names: the data model of the specification *)

Inductive ValidationIssue : Type :=
| DuplicateId (prefix new_name exist_name : string)
| InconsistentPadding (prefix : string)
| TemplateMismatch (name template : string)
| InvalidCharacter (offending : string).

(** The messages are those the integration tests compare against. *)
Definition message (i : ValidationIssue) : string :=
  match i with
  | DuplicateId prefix new_name exist_name =>
      "A " +:+ prefix +:+ " already exists with the same " +:+ prefix +:+
      " id as " +:+ new_name +:+ ". The existing folder is " +:+
      exist_name +:+ "."
  | InconsistentPadding prefix =>
      "Inconsistent value lengths for the key " +:+ prefix +:+
      " were found. Ensure the number of digits for the " +:+ prefix +:+
      " value are the same and prefixed with leading zeros if required."
  | TemplateMismatch name template =>
      "The name: " +:+ name +:+ " does not match the template: " +:+ template
  | InvalidCharacter offending =>
      "Invalid character in subject or session value: " +:+ offending
  end.

Record NameComponent : Type := { key : string; value : string }.

Record ParsedName : Type := { components : list NameComponent; raw : string }.

Definition is_space_or_joiner (c : ascii) : bool :=
  Ascii.is_space c || Ascii.eqb c "-" || Ascii.eqb c "_".

Fixpoint string_forallb (p : ascii -> bool) (s : string) : bool :=
  match s with
  | EmptyString => true
  | String c s' => p c && string_forallb p s'
  end.

(** Keys are non-empty and hold no [-], [_] or whitespace. *)
Definition key_ok (k : string) : bool :=
  negb (String.eqb k "") && string_forallb (fun c => negb (is_space_or_joiner c)) k.

Definition parse_component (c : string) : ValidationIssue + NameComponent :=
  match Py.partition "-" c with
  | None => inl (InvalidCharacter c)
  | Some (k, v) =>
      if key_ok k then inr {| key := k; value := v |}
      else inl (InvalidCharacter k)
  end.

Fixpoint parse_components (cs : list string)
  : ValidationIssue + list NameComponent :=
  match cs with
  | [] => inr []
  | c :: cs' =>
      match parse_component c with
      | inl i => inl i
      | inr nc =>
          match parse_components cs' with
          | inl i => inl i
          | inr ncs => inr (nc :: ncs)
          end
      end
  end.

Fixpoint first_duplicate (ks : list string) : option string :=
  match ks with
  | [] => None
  | k :: ks' => if bool_decide (k ∈ ks') then Some k else first_duplicate ks'
  end.

(** Modelled from the spec: the Name Parser ([parse_name], section 4.2), whose
    source file is missing. The name is split on [_], each component on its
    first [-]; it fails with [InvalidCharacter] for a component without [-],
    a first key other than the expected prefix, a key with disallowed
    characters, a primary value that is the prefix literal again (the
    [sub-sub_100] case of [test_invalid_sub_and_ses_name], which reports the
    value), and a key that occurs twice. The first component is checked before
    the others are read, so that [sub-sub_100] reports the value [sub]. *)
Definition parse_name (name prefix : string) : ValidationIssue + ParsedName :=
  match Py.split "_" name with
  | [] => inl (InvalidCharacter name)
  | c0 :: cs =>
      match parse_component c0 with
      | inl i => inl i
      | inr nc0 =>
          if negb (String.eqb (key nc0) prefix) then inl (InvalidCharacter (key nc0))
          else if String.eqb (value nc0) prefix then inl (InvalidCharacter (value nc0))
          else
            match parse_components cs with
            | inl i => inl i
            | inr ncs =>
                match first_duplicate (map key (nc0 :: ncs)) with
                | Some k => inl (InvalidCharacter k)
                | None => inr {| components := nc0 :: ncs; raw := name |}
                end
            end
      end
  end.

(** The primary value: the value of the prefix component. *)
Definition primary_value (p : ParsedName) : string :=
  match components p with
  | [] => EmptyString
  | c :: _ => value c
  end.

(** ** [datashuttle.utils.utils]: the helpers the getters call *)

Module utils.

(** [utils.raise_error(message, exception)] *)
Definition raise_error {A} (message : string) (exception : string -> exn)
  : pyrun A := raise (exception message).

(** Modelled from the spec: [utils.sub_or_ses_value_to_int], whose source
    file is missing. The primary numeric value is a run of decimal digits;
    anything else is reported with the message that
    [test_invalid_sub_and_ses_name] expects. *)
Definition sub_or_ses_value_to_int (value : string) : pyrun Z :=
  if negb (String.eqb value "") && Py.all_digits value
  then ret (Z.of_N (Py.digits_value 0 value))
  else raise_error (message (InvalidCharacter value)) NeuroBlueprintError.

(** Modelled from the spec: [utils.get_values_from_bids_formatted_name]
    (with [return_as_int=False]), whose source file is missing: the primary
    value of every name, as the Name Parser extracts it. *)
Definition get_values_from_bids_formatted_name
    (all_names : list string) (key : string) : pyrun (list string) :=
  for_each
    (fun name =>
       match parse_name name key with
       | inl i => raise_error (message i) NeuroBlueprintError
       | inr p => ret (primary_value p)
       end)
    all_names.

(** Modelled from the spec: [utils.integers_are_consecutive], whose source
    file is missing: the sorted numbers have no gap. *)
Fixpoint integers_are_consecutive (l : list Z) : bool :=
  match l with
  | x :: ((y :: _) as l') => (y - x =? 1) && integers_are_consecutive l'
  | _ => true
  end.

End utils.

(** [str] of a list of ints, as an f-string prints it. *)
Definition str_of_int_list (l : list Z) : string :=
  "[" +:+ Py.join ", " (map Py.str l) +:+ "]".

(** ** [datashuttle/utils/getters.py] *)

(** The result of [folders.search_project_for_sub_or_ses_names]: the folder
    names found in the local and in the central project. *)
Record FolderNames : Type := { local : list string; central : list string }.

(** Truth value of an [Optional[str]]. *)
Definition truthy (sub : option string) : bool :=
  match sub with
  | Some s => negb (String.eqb s "")
  | None => false
  end.

Definition get_max_sub_or_ses_num_and_value_length
    (all_folders : list string) (prefix : string)
    (default_num_value_digits : option Z) : pyrun (Z * Z) :=
  if Nat.eqb (length all_folders) 0 then
    match default_num_value_digits with
    | None => raise (AssertionError "`default_num_value_digits` must be int`")
    | Some num_value_digits => ret (0, num_value_digits)
    end
  else
    all_values_str <- utils.get_values_from_bids_formatted_name all_folders prefix ;;
    let all_num_value_digits := map Py.len all_values_str in
    (if negb (Nat.eqb (size (list_to_set all_num_value_digits : gset nat)) 1)
     then utils.raise_error
            ("The number of value digits for the " +:+ prefix +:+
             " level are not consistent. Cannot suggest a " +:+ prefix +:+
             " number.")
            NeuroBlueprintError
     else ret tt) ;;;
    num_value_digits <-
      match all_num_value_digits with
      | [] => raise (BaseException "list index out of range")
      | d :: _ => ret d
      end ;;
    unsorted <- for_each utils.sub_or_ses_value_to_int all_values_str ;;
    let all_value_nums := merge_sort Z.le unsorted in
    (if negb (utils.integers_are_consecutive all_value_nums)
     then warn ("A subject number has been skipped, " +:+
                "currently used subject numbers are: " +:+
                str_of_int_list all_value_nums)
     else ret tt) ;;;
    max_existing_num <-
      match Py.max all_value_nums with
      | None => raise (BaseException "max() arg is an empty sequence")
      | Some m => ret m
      end ;;
    ret (max_existing_num, Z.of_nat num_value_digits).

Section Getters.

(** [folders.search_project_for_sub_or_ses_names(cfg, sub, search_str,
    local_only)]: the folder scanner, which reads the file systems. *)
Variable search_project_for_sub_or_ses_names :
  option string -> string -> bool -> FolderNames.

Definition get_next_sub_or_ses_number
    (sub : option string) (search_str : string)
    (local_only return_with_prefix : bool)
    (default_num_value_digits : Z) : pyrun string :=
  let prefix := if truthy sub then "ses" else "sub" in
  let folder_names :=
    search_project_for_sub_or_ses_names sub search_str local_only in
  let all_folders :=
    elements (list_to_set (local folder_names ++ central folder_names)
                : gset string) in
  r <- get_max_sub_or_ses_num_and_value_length
         all_folders prefix (Some default_num_value_digits) ;;
  let '(max_existing_num, num_value_digits) := r in
  let suggested_new_num := max_existing_num + 1 in
  let format_suggested_new_num :=
    Py.zfill (Py.str suggested_new_num) num_value_digits in
  ret (if return_with_prefix
       then prefix +:+ "-" +:+ format_suggested_new_num
       else format_suggested_new_num).

(** [get_all_sub_and_ses_names]: the subject names, local before central,
    and for every subject found its session names in the same order. The
    dictionary is keyed by the subject name. *)
Definition get_all_sub_and_ses_names (local_only : bool)
  : list string * gmap string (list string) :=
  let sub_folder_names :=
    search_project_for_sub_or_ses_names None "sub-*" local_only in
  let all_sub_folder_names :=
    if local_only then local sub_folder_names
    else local sub_folder_names ++ central sub_folder_names in
  let all_ses_folder_names :=
    fold_left
      (fun (d : gmap string (list string)) sub =>
         let ses_folder_names :=
           search_project_for_sub_or_ses_names (Some sub) "ses-*" local_only in
         <[ sub := if local_only then local ses_folder_names
                   else local ses_folder_names ++ central ses_folder_names ]> d)
      all_sub_folder_names ∅ in
  (all_sub_folder_names, all_ses_folder_names).

End Getters.

(** The defaults of the keyword arguments of [get_next_sub_or_ses_number]. *)
Definition default_num_value_digits_default : Z := 3.


(** ** [manager/utils.py] *)

Module manager.

(** What a caller can pass as [names]: a string, a list whose elements are
    strings or not, or something else. *)
Inductive element : Type := EStr (s : string) | ENotStr.

Inductive names_arg : Type :=
| NStr (s : string)
| NList (l : list element)
| NOther.

Definition is_str (e : element) : bool :=
  match e with EStr _ => true | ENotStr => false end.

(** [raise_error(message)]: raises [BaseException(message)]. *)
Definition raise_error {A} (message : string) : pyrun A :=
  raise (BaseException message).

Definition ensure_prefixes_on_list_of_names
    (names : list string) (prefix : string) : list string :=
  let n_chars := Py.len prefix in
  map (fun name =>
         if negb (String.eqb (Py.slice_to n_chars name) prefix)
         then prefix +:+ name else name)
      names.

Definition type_error_message : string :=
  "Ensure subject and session names are list of strings, or string".

Definition duplicates_message : string :=
  "Subject and session names but all be unqiue (i.e. there are no" +:+
  " duplicates in list input)".

(** The type check: [names] is a [str] or a [list], and every element is a
    [str] (the elements of a [str] are its characters, which are). The
    [return False] after the first [raise_error] is never reached. *)
Definition process_names (names : names_arg) (prefix : string)
  : pyrun (list string) :=
  names <-
    match names with
    | NOther => raise_error type_error_message
    | NStr s => ret [s]
    | NList l =>
        if existsb (fun ele => negb (is_str ele)) l
        then raise_error type_error_message
        else ret (omap (fun e => match e with EStr s => Some s | ENotStr => None end) l)
    end ;;
  let prefixed_names := ensure_prefixes_on_list_of_names names prefix in
  (if negb (Nat.eqb (length prefixed_names)
              (size (list_to_set prefixed_names : gset string)))
   then raise_error duplicates_message
   else ret tt) ;;;
  ret prefixed_names.

End manager.

(** ** [datashuttle/configs/canonical_configs.py]: name templates *)

Record NameTemplateConfig : Type :=
  { on : bool; sub : option string; ses : option string }.

(** [get_name_templates_defaults()["name_templates"]] *)
Definition get_name_templates_defaults : NameTemplateConfig :=
  {| on := false; sub := None; ses := None |}.

Definition template_for (prefix : string) (cfg : NameTemplateConfig)
  : option string :=
  if String.eqb prefix "sub" then sub cfg
  else if String.eqb prefix "ses" then ses cfg
  else None.

(** ** Tag expansion *)

(** [current_time()]: the clock the Tag Expander reads. *)
Record Clock : Type :=
  { year : N; month : N; day : N; hour : N; minute : N; second : N }.

Definition two_digits (n : N) : string := Py.zfill (Py.str_of_N n) 2.
Definition four_digits (n : N) : string := Py.zfill (Py.str_of_N n) 4.

(** [YYYYMMDD] *)
Definition format_date (c : Clock) : string :=
  four_digits (year c) +:+ two_digits (month c) +:+ two_digits (day c).

(** [HHMMSS] *)
Definition format_time (c : Clock) : string :=
  two_digits (hour c) +:+ two_digits (minute c) +:+ two_digits (second c).

(** The combined form. Its key is the one that
    [test_datetime_flag_in_session] searches for in the folder names,
    [datetime-<date>T<six digits>]. *)
Definition format_datetime (c : Clock) : string :=
  "datetime-" +:+ format_date c +:+ "T" +:+ format_time c.

Definition tag_date : string := "@DATE@".
Definition tag_time : string := "@TIME@".
Definition tag_datetime : string := "@DATETIME@".

(** Modelled from the spec: the Tag Expander ([expand_tags], section 4.1),
    whose source file is missing: the literal tokens are replaced one after
    the other by the date, the time and the combined form of the current
    clock reading. *)
Definition expand_tags (c : Clock) (name : string) : string :=
  Py.replace tag_datetime (format_datetime c)
    (Py.replace tag_time (format_time c)
       (Py.replace tag_date (format_date c) name)).



(** ** A regular-expression matcher for the templates of the tests

    The code hands the template to Python's [re]; the validation below takes
    the matcher as a parameter. This one covers what the templates of
    [test_persistent_settings_name_templates] use: literal characters, [.],
    [\d], and the postfix operators [?], [*] and [+]. *)

Module Regex.

Inductive atom : Type := Lit (c : ascii) | AnyChar | Digit.
Inductive quant : Type := One | Opt | Star | Plus.

Definition atom_ok (a : atom) (c : ascii) : bool :=
  match a with
  | Lit c' => Ascii.eqb c c'
  | AnyChar => negb (Ascii.eqb c "010")
  | Digit => Py.is_digit c
  end.

Definition quant_of (s : string) : quant * string :=
  match s with
  | String "?" s' => (Opt, s')
  | String "*" s' => (Star, s')
  | String "+" s' => (Plus, s')
  | _ => (One, s)
  end.

Fixpoint parse (fuel : nat) (s : string) : list (atom * quant) :=
  match fuel with
  | O => []
  | S f =>
      match s with
      | EmptyString => []
      | String "\" (String c s') =>
          let a := if Ascii.eqb c "d" then Digit else Lit c in
          let '(q, rest) := quant_of s' in (a, q) :: parse f rest
      | String c s' =>
          let a := if Ascii.eqb c "." then AnyChar else Lit c in
          let '(q, rest) := quant_of s' in (a, q) :: parse f rest
      end
  end.

Fixpoint match_items (p : list (atom * quant)) (s : string) : bool :=
  match p with
  | [] => String.eqb s ""
  | (a, q) :: p' =>
      let star :=
        fix star (s : string) : bool :=
          match_items p' s ||
          match s with
          | String c s' => atom_ok a c && star s'
          | EmptyString => false
          end in
      match q with
      | One => match s with
               | String c s' => atom_ok a c && match_items p' s'
               | EmptyString => false
               end
      | Opt => match_items p' s ||
               match s with
               | String c s' => atom_ok a c && match_items p' s'
               | EmptyString => false
               end
      | Star => star s
      | Plus => match s with
                | String c s' => atom_ok a c && star s'
                | EmptyString => false
                end
      end
  end.

(** [re.fullmatch(template, name) is not None] *)
Definition fullmatch (template name : string) : bool :=
  match_items (parse (S (Py.len template)) template) name.

End Regex.

(** ** Validation of candidate names against the project *)

(** [error_or_warn] *)
Inductive severity : Type := error | warning.

(** Validation raises an issue or warns about it. *)
Abbreviation vrun := (run ValidationIssue ValidationIssue).

Definition raise_error_or_warn (i : ValidationIssue) (error_or_warn : severity)
  : vrun unit :=
  match error_or_warn with
  | error => raise i
  | warning => warn i
  end.

Fixpoint report_all (error_or_warn : severity) (issues : list ValidationIssue)
  : vrun unit :=
  match issues with
  | [] => ret tt
  | i :: issues' =>
      raise_error_or_warn i error_or_warn ;;; report_all error_or_warn issues'
  end.

(** Grammar failures are fatal in both modes. *)
Definition parse_all (names : list string) (prefix : string)
  : vrun (list ParsedName) :=
  for_each
    (fun name =>
       match parse_name name prefix with
       | inl i => raise i
       | inr p => ret p
       end)
    names.

(** The primary id two names are compared by: the number when the primary
    value is a run of digits ([sub-002] clashes with [sub-2_id-b] in
    [test_validate_names_against_project]), the value itself otherwise. *)
Inductive primary_id : Type := NumId (n : N) | StrId (s : string).

#[global] Instance primary_id_eq_dec : EqDecision primary_id.
Proof. solve_decision. Defined.

Definition primary_id_of (p : ParsedName) : primary_id :=
  let v := primary_value p in
  if negb (String.eqb v "") && Py.all_digits v
  then NumId (Py.digits_value 0 v) else StrId v.

(** The digit run that follows the prefix. *)
Fixpoint digit_run (s : string) : string :=
  match s with
  | String c s' => if Py.is_digit c then String c (digit_run s') else EmptyString
  | EmptyString => EmptyString
  end.

(** The digit counts of the primary numeric values; a primary value without
    a leading digit run is left out. *)
Definition value_lengths (names : list ParsedName) : list nat :=
  omap (fun p =>
          let r := digit_run (primary_value p) in
          if String.eqb r "" then None else Some (Py.len r))
       names.

Definition value_lengths_are_inconsistent (names : list ParsedName) : bool :=
  Nat.ltb 1 (size (list_to_set (value_lengths names) : gset nat)).

Definition padding_issues (prefix : string) (names : list ParsedName)
  : list ValidationIssue :=
  if value_lengths_are_inconsistent names then [InconsistentPadding prefix] else [].

(** A new name clashes with an existing one that has its primary id and is
    not the very same string. *)
Definition clashes (new_name exist_name : ParsedName) : bool :=
  bool_decide (primary_id_of new_name = primary_id_of exist_name)
  && negb (String.eqb (raw new_name) (raw exist_name)).

Definition new_name_duplicates_existing
    (prefix : string) (new_name : ParsedName) (existing_names : list ParsedName)
  : list ValidationIssue :=
  flat_map
    (fun exist_name =>
       if clashes new_name exist_name
       then [DuplicateId prefix (raw new_name) (raw exist_name)] else [])
    existing_names.

Definition duplicate_issues
    (prefix : string) (new_names existing_names : list ParsedName)
  : list ValidationIssue :=
  flat_map (fun new_name => new_name_duplicates_existing prefix new_name existing_names)
           new_names.

Section Validation.

(** Python's [re], applied to a template and a name. *)
Variable re_match : string -> string -> bool.

(** The folder scanner. *)
Variable search_project_for_sub_or_ses_names :
  option string -> string -> bool -> FolderNames.

(** Modelled from the spec: the Template Matcher (section 4.3), whose
    source file is missing: when the templates are on and one is set for
    the prefix, every raw candidate name that does not match it is an
    issue; when they are off the stage does nothing. *)
Definition template_issues
    (prefix : string) (names : list string) (name_templates : NameTemplateConfig)
  : list ValidationIssue :=
  if on name_templates then
    match template_for prefix name_templates with
    | Some template =>
        flat_map (fun name =>
                    if re_match template name then []
                    else [TemplateMismatch name template])
                 names
    | None => []
    end
  else [].

(** Modelled from the spec: the checks of one hierarchy level (sections 4.2
    to 4.4), whose source file ([validation.py]) is missing. The candidates
    are parsed and matched against the template, then the existing names
    are read and the combined collection is checked. The scan order is the
    one the integration tests observe: in
    [test_validate_names_against_project] the padding warning comes before
    the duplicate warnings, and in
    [test_duplicate_sub_and_ses_num_leading_zeros] the error raised for
    [sub-001] against an existing [sub-1] is the padding one. *)
Definition validate_level
    (prefix : string) (existing candidates : list string)
    (error_or_warn : severity) (name_templates : NameTemplateConfig)
  : vrun unit :=
  new_names <- parse_all candidates prefix ;;
  report_all error_or_warn (template_issues prefix candidates name_templates) ;;;
  existing_names <- parse_all existing prefix ;;
  report_all error_or_warn (padding_issues prefix (existing_names ++ new_names)) ;;;
  report_all error_or_warn (duplicate_issues prefix new_names existing_names).

Fixpoint validate_sessions
    (ses_folder_names : gmap string (list string))
    (sub_names ses_names : list string)
    (error_or_warn : severity) (name_templates : NameTemplateConfig)
  : vrun unit :=
  match sub_names with
  | [] => ret tt
  | new_sub :: sub_names' =>
      validate_level "ses" (default [] (ses_folder_names !! new_sub)) ses_names
        error_or_warn name_templates ;;;
      validate_sessions ses_folder_names sub_names' ses_names
        error_or_warn name_templates
  end.

(** Modelled from the spec: [validate_candidate_names] (section 6), called
    [validation.validate_names_against_project] by the tests; its source
    file is missing. The existing names come from
    [get_all_sub_and_ses_names]; subjects are checked project-wide, then the
    sessions within each candidate subject. *)
Definition validate_names_against_project
    (sub_names : list string) (ses_names : option (list string))
    (local_only : bool) (error_or_warn : severity)
    (name_templates : NameTemplateConfig) : vrun unit :=
  let folder_names :=
    get_all_sub_and_ses_names search_project_for_sub_or_ses_names local_only in
  validate_level "sub" (fst folder_names) sub_names error_or_warn name_templates ;;;
  match ses_names with
  | None => ret tt
  | Some ses_names =>
      validate_sessions (snd folder_names) sub_names ses_names
        error_or_warn name_templates
  end.

End Validation.

(** Modelled from the spec: name processing at folder creation (section 2),
    whose source file is missing: the names are prefixed by [process_names],
    their tags are expanded and every name is parsed; a grammar failure is
    raised with its message. The prefix string of [process_names] ends with
    the [-] joiner: [test_generate_folders_default_ses] turns [00011] into
    [sub-00011]. *)
Definition process_and_parse_names
    (c : Clock) (names : manager.names_arg) (prefix : string)
  : pyrun (list string) :=
  prefixed_names <- manager.process_names names (prefix +:+ "-") ;;
  let expanded := map (expand_tags c) prefixed_names in
  for_each
    (fun name =>
       match parse_name name prefix with
       | inl i => utils.raise_error (message i) NeuroBlueprintError
       | inr p => ret (raw p)
       end)
    expanded.

(** ** Vocabulary of the statements *)

(** The digit width and the number of the primary value of a name, when the
    name parses and its primary value is a run of digits. *)
Definition primary_number (prefix name : string) : option (nat * Z) :=
  match parse_name name prefix with
  | inr p =>
      let v := primary_value p in
      if negb (String.eqb v "") && Py.all_digits v
      then Some (Py.len v, Z.of_N (Py.digits_value 0 v))
      else None
  | inl _ => None
  end.

(** The names found by a scan, local and central together. *)
Definition scanned (f : FolderNames) : list string := local f ++ central f.

(** A scanner that finds the same folders whatever it is asked. *)
Definition scan_of (l c : list string)
  : option string -> string -> bool -> FolderNames :=
  fun _ _ _ => {| local := l; central := c |}.

(** The prefix that [get_next_sub_or_ses_number] works with. *)
Definition prefix_of (sub : option string) : string :=
  if truthy sub then "ses" else "sub".

(** What prefixing is to do to one name: the prefix string is put in front
    unless the name starts with it already. *)
Definition prefixed (prefix name : string) : string :=
  if Py.startswith prefix name then name else prefix +:+ name.

(** Text that holds no [@], so that no tag starts or ends inside it. *)
Definition no_at (s : string) : bool :=
  string_forallb (fun c => negb (Ascii.eqb c "@")) s.







(** A project on disk: the subject folders, and the session folders of every
    subject, local and central; a local-only scan finds nothing central. *)
Definition scan_project (subs : FolderNames) (sessions : string -> FolderNames)
  : option string -> string -> bool -> FolderNames :=
  fun sub _ local_only =>
    let found := match sub with
                 | None => subs
                 | Some s => sessions s
                 end in
    if local_only then {| local := local found; central := [] |} else found.




(** The project of [test_validate_names_against_project]: three local
    subjects, one central subject, and the sessions made later in the test. *)
Definition test_project : option string -> string -> bool -> FolderNames :=
  scan_project
    {| local := ["sub-1_id-@"; "sub-2_id-b"; "sub-3_id-c"];
       central := ["sub-4_date-2023"] |}
    (fun s =>
       if String.eqb s "sub-2_id-b"
       then {| local := ["ses-001"; "ses-002"]; central := [] |}
       else if String.eqb s "sub-4_date-2023"
       then {| local := []; central := ["ses-003"] |}
       else {| local := []; central := [] |}).

(** ** [datashuttle/configs/canonical_configs.py]: the checks on a config *)

Module configs.

(** A [pathlib] path: the anchor (empty for a relative path) and the
    components after it. *)
Record Path : Type := { anchor : string; parts : list string }.

(** [path.as_posix()] *)
Definition as_posix (p : Path) : string :=
  match anchor p, parts p with
  | EmptyString, [] => "."
  | a, ps => a +:+ Py.join "/" ps
  end.

(** [path.name]: the last component, empty when there is none. *)
Definition name (p : Path) : string := List.last (parts p) EmptyString.

(** [path.parent] *)
Definition parent (p : Path) : Path :=
  {| anchor := anchor p; parts := removelast (parts p) |}.

(** [s.rfind(c)]: the index of the last occurrence, [None] for Python's -1. *)
Fixpoint rfind_from (c : ascii) (s : string) (i : nat) (found : option nat)
  : option nat :=
  match s with
  | EmptyString => found
  | String a s' => rfind_from c s' (S i) (if Ascii.eqb a c then Some i else found)
  end.

Definition rfind (c : ascii) (s : string) : option nat := rfind_from c s 0 None.

(** [path.stem]: the name without its last suffix; a dot that starts or ends
    the name does not begin a suffix. *)
Definition stem_of_name (n : string) : string :=
  match rfind "." n with
  | Some i =>
      if Nat.ltb 0 i && Nat.ltb i (Py.len n - 1) then Py.slice_to i n else n
  | None => n
  end.

Definition stem (p : Path) : string := stem_of_name (name p).

(** The values a config can hold. *)
Inductive pyval : Type :=
| VStr (s : string)
| VPath (p : Path)
| VBool (b : bool)
| VNone
| VOther.

Inductive pytype : Type := TStr | TPath | TBool | TNoneType.

(** The annotations of [get_canonical_configs]; [Optional[t]] is
    [Union[t, NoneType]]. *)
Inductive annotation : Type :=
| Union (args : list pytype)
| Literal (args : list string)
| Plain (t : pytype).

Definition isinstance (v : pyval) (t : pytype) : bool :=
  match v, t with
  | VStr _, TStr | VPath _, TPath | VBool _, TBool | VNone, TNoneType => true
  | _, _ => false
  end.

(** [v in (options...)] for string options. *)
Definition in_literal (v : pyval) (options : list string) : bool :=
  match v with
  | VStr s => existsb (String.eqb s) options
  | _ => false
  end.

(** [not v] *)
Definition falsy (v : pyval) : bool :=
  match v with
  | VStr s => String.eqb s ""
  | VBool b => negb b
  | VNone => true
  | VPath _ | VOther => false
  end.

Definition get_canonical_configs : list (string * annotation) :=
  [ ("local_path", Union [TStr; TPath]);
    ("central_path", Union [TStr; TPath]);
    ("connection_method", Literal ["ssh"; "local_filesystem"]);
    ("central_host_id", Union [TStr; TNoneType]);
    ("central_host_username", Union [TStr; TNoneType]);
    ("overwrite_old_files", Plain TBool);
    ("transfer_verbosity", Literal ["v"; "vv"]);
    ("show_transfer_progress", Plain TBool) ].

Definition get_datatypes : list string := ["ephys"; "behav"; "funcimg"; "anat"].

Definition get_flags : list string :=
  ["overwrite_old_files"; "show_transfer_progress"].

(** The [Configs] dictionary: the project name and the entries in the order
    of the dictionary. *)
Record Configs : Type :=
  { project_name : string; data : list (string * pyval) }.

Definition keys {V} (d : list (string * V)) : list string := map fst d.

Fixpoint lookup {V} (key : string) (d : list (string * V)) : option V :=
  match d with
  | [] => None
  | (k, v) :: d' => if String.eqb k key then Some v else lookup key d'
  end.

(** What the checks report, by the place that raises it. *)
Inductive config_problem : Type :=
| KeyNotFound (key : string)
    (* Loading Failed. The key '{key}' was not found in the config. *)
| InvalidKey (key : string)
    (* The config contains an invalid key: {key}. *)
| NotInLiteral (value : pyval) (options : list string)
    (* '{value}' not in {options} *)
| WrongType (key : string) (expected : annotation)
    (* The type of the value at '{key}' is incorrect, it must be ... *)
| WrongOrder
    (* New config keys are in the wrong order. *)
| BadConnectionMethod
    (* 'connection method' must be 'ssh' or 'local_filesystem'. *)
| TildeSyntax (path_type : string)
    (* {path_type} must contain the full folder path with no ~ syntax. *)
| DotSyntax (path_type : string)
    (* {path_type} must contain the full folder path with no dot syntax. *)
| NotProjectName (path_type : string)
    (* The {path_type} does not end in the project name: ... *)
| SshDetailsRequired
    (* 'central_host_id' and 'central_host_username' are required if ... *)
| BadTransferVerbosity.
    (* 'transfer_verbosity' must be either 'v' or 'vv'. *)

(** The exceptions of the checks, by class. *)
Inductive raised : Type :=
| ConfigError (why : config_problem)
| FileNotFoundError (path_name : string) (ssh_hint : bool)
| RuntimeError
| KeyError (key : string)
| AttributeError (attribute : string)
| IndexError.

Abbreviation crun := (run raised string).

(** [d[key]] *)
Definition getitem {V} (d : list (string * V)) (key : string) : crun V :=
  match lookup key d with
  | Some v => ret v
  | None => raise (KeyError key)
  end.

(** An attribute or method of a path, asked of a config value: a value that
    is not a path has none. *)
Definition path_of (v : pyval) (attribute : string) : crun Path :=
  match v with
  | VPath p => ret p
  | _ => raise (AttributeError attribute)
  end.

(** [str(v)] as the message to the user prints it; a path prints in its
    posix form. *)
Definition str_of_value (v : pyval) : string :=
  match v with
  | VStr s => s
  | VPath p => as_posix p
  | VBool true => "True"
  | VBool false => "False"
  | VNone => "None"
  | VOther => "..."
  end.

Definition check_config_types (config_dict : Configs) : crun unit :=
  let required_types := get_canonical_configs in
  for_each
    (fun key =>
       expected_type <- getitem required_types key ;;
       value <- getitem (data config_dict) key ;;
       match expected_type with
       | Literal args =>
           if negb (in_literal value args)
           then raise (ConfigError (NotInLiteral value args))
           else ret tt
       | Plain t =>
           if negb (isinstance value t)
           then raise (ConfigError (WrongType key expected_type))
           else ret tt
       | Union args =>
           if negb (existsb (isinstance value) args)
           then raise (ConfigError (WrongType key expected_type))
           else ret tt
       end)
    (keys (data config_dict)) ;;;
  ret tt.

Section Checks.

(** The file system: whether a path is an existing folder, and whether
    [folders.make_folders] on a config value succeeds (it raises [OSError]
    when it does not). *)
Variable is_dir : Path -> bool.
Variable make_folders_ok : pyval -> bool.

Definition check_folder_above_project_name_exists (config_dict : Configs)
  : crun unit :=
  local_value <- getitem (data config_dict) "local_path" ;;
  local_path <- path_of local_value "parent" ;;
  (if negb (is_dir (parent local_path)) then
     connection_method <- getitem (data config_dict) "connection_method" ;;
     raise (FileNotFoundError "local_path"
              (in_literal connection_method ["ssh"]))
   else ret tt) ;;;
  connection_method <- getitem (data config_dict) "connection_method" ;;
  if in_literal connection_method ["local_filesystem"] then
    central_value <- getitem (data config_dict) "central_path" ;;
    central_path <- path_of central_value "parent" ;;
    if negb (is_dir (parent central_path))
    then raise (FileNotFoundError "central_path" false)
    else ret tt
  else ret tt.

(** The body of the loop over [local_path] and [central_path]. *)
Definition check_path (config_dict : Configs) (path_type : string) : crun unit :=
  value <- getitem (data config_dict) path_type ;;
  path <- path_of value "as_posix" ;;
  let path_name := as_posix path in
  (match path_name with
   | EmptyString => raise IndexError
   | String c _ =>
       if Ascii.eqb c "~" then raise (ConfigError (TildeSyntax path_type))
       else ret tt
   end) ;;;
  for_each
    (fun bad_start =>
       if Py.startswith bad_start path_name
       then raise (ConfigError (DotSyntax path_type))
       else ret tt)
    ["."; "../"] ;;;
  if negb (String.eqb (stem path) (project_name config_dict))
  then raise (ConfigError (NotProjectName path_type))
  else ret tt.

Definition check_dict_values_raise_on_fail (config_dict : Configs) : crun unit :=
  let canonical_dict := get_canonical_configs in
  for_each
    (fun key =>
       if negb (bool_decide (key ∈ keys (data config_dict)))
       then raise (ConfigError (KeyNotFound key))
       else ret tt)
    (keys canonical_dict) ;;;
  for_each
    (fun key =>
       if negb (bool_decide (key ∈ keys canonical_dict))
       then raise (ConfigError (InvalidKey key))
       else ret tt)
    (keys (data config_dict)) ;;;
  check_config_types config_dict ;;;
  (if negb (bool_decide (keys (data config_dict) = keys canonical_dict))
   then raise (ConfigError WrongOrder)
   else ret tt) ;;;
  connection_method <- getitem (data config_dict) "connection_method" ;;
  (if negb (in_literal connection_method ["ssh"; "local_filesystem"])
   then raise (ConfigError BadConnectionMethod)
   else ret tt) ;;;
  for_each (check_path config_dict) ["local_path"; "central_path"] ;;;
  check_folder_above_project_name_exists config_dict ;;;
  connection_method <- getitem (data config_dict) "connection_method" ;;
  details_missing <-
    (if in_literal connection_method ["ssh"] then
       central_host_id <- getitem (data config_dict) "central_host_id" ;;
       if falsy central_host_id then ret true
       else
         central_host_username <-
           getitem (data config_dict) "central_host_username" ;;
         ret (falsy central_host_username)
     else ret false) ;;
  (if details_missing : bool
   then raise (ConfigError SshDetailsRequired)
   else ret tt) ;;;
  transfer_verbosity <- getitem (data config_dict) "transfer_verbosity" ;;
  (if negb (in_literal transfer_verbosity ["v"; "vv"])
   then raise (ConfigError BadTransferVerbosity)
   else ret tt) ;;;
  local_path <- getitem (data config_dict) "local_path" ;;
  warn ("Making project folder at: " +:+ str_of_value local_path) ;;;
  if make_folders_ok local_path then ret tt else raise RuntimeError.

End Checks.

End configs.

(** ** [datashuttle/tui/custom_widgets.py]: the name inputs *)

Module tui.

(** [ClickableInput.as_names_list]: the names typed into an input, separated
    by commas, spaces ignored. *)
Definition as_names_list (value : string) : list string :=
  Py.split "," (Py.replace " " "" value).

(** The values of the subject input and of the session input of a
    [TreeAndInputTab]. *)
Record Inputs : Type := { sub_input : string; ses_input : string }.

Definition insert_sub_or_ses_name_to_input (w : Inputs) (name : string) : Inputs :=
  if Py.startswith "sub-" name
  then {| sub_input := name; ses_input := ses_input w |}
  else if Py.startswith "ses-" name
  then {| sub_input := sub_input w; ses_input := name |}
  else w.

Definition append_sub_or_ses_name_to_input (w : Inputs) (name : string) : Inputs :=
  let w :=
    if Py.startswith "sub-" name then
      if String.eqb (sub_input w) ""
      then {| sub_input := name; ses_input := ses_input w |}
      else {| sub_input := sub_input w +:+ ", " +:+ name; ses_input := ses_input w |}
    else w in
  if Py.startswith "ses-" name then
    if String.eqb (ses_input w) ""
    then {| sub_input := sub_input w; ses_input := name |}
    else {| sub_input := sub_input w; ses_input := ses_input w +:+ ", " +:+ name |}
  else w.

End tui.

(** ** Vocabulary of the further statements *)

(** The number of occurrences of a character. *)
Fixpoint count_char (c : ascii) (s : string) : nat :=
  match s with
  | EmptyString => 0
  | String a s' => (if Ascii.eqb a c then 1 else 0) + count_char c s'
  end.

(** A string without the character. *)
Definition free_of (c : ascii) (s : string) : bool :=
  string_forallb (fun a => negb (Ascii.eqb a c)) s.

(** The string without every occurrence of the character. *)
Fixpoint without_char (c : ascii) (s : string) : string :=
  match s with
  | EmptyString => EmptyString
  | String a s' =>
      if Ascii.eqb a c then without_char c s' else String a (without_char c s')
  end.

(** The message of the width check of
    [get_max_sub_or_ses_num_and_value_length]. *)
Definition inconsistent_digits_message (prefix : string) : string :=
  "The number of value digits for the " +:+ prefix +:+
  " level are not consistent. Cannot suggest a " +:+ prefix +:+ " number.".

(** The folders of a scan that a caller of [get_all_sub_and_ses_names]
    looks at: the local ones, and the central ones unless the scan is
    local only. *)
Definition folders_looked_at (local_only : bool) (f : FolderNames) : list string :=
  if local_only then local f else local f ++ central f.

(** A config in the canonical layout. *)
Definition canonical_layout
    (local_path central_path connection_method central_host_id
       central_host_username overwrite_old_files transfer_verbosity
       show_transfer_progress : configs.pyval)
  : list (string * configs.pyval) :=
  [ ("local_path", local_path);
    ("central_path", central_path);
    ("connection_method", connection_method);
    ("central_host_id", central_host_id);
    ("central_host_username", central_host_username);
    ("overwrite_old_files", overwrite_old_files);
    ("transfer_verbosity", transfer_verbosity);
    ("show_transfer_progress", show_transfer_progress) ].

(** A path that the syntax checks let through for a project. *)
Definition path_accepted (project_name : string) (p : configs.Path) : Prop :=
  configs.as_posix p <> ""
  /\ Py.startswith "~" (configs.as_posix p) = false
  /\ Py.startswith "." (configs.as_posix p) = false
  /\ configs.stem p = project_name.

(** An optional string: [None] or a [str]. *)
Definition optional_str (v : configs.pyval) : Prop :=
  v = configs.VNone \/ exists s, v = configs.VStr s.

(** The configs that pass every check. *)
Definition config_accepted
    (is_dir : configs.Path -> bool) (make_folders_ok : configs.pyval -> bool)
    (c : configs.Configs) : Prop :=
  exists lp cp cm hid hun o tv s,
    configs.data c
    = canonical_layout (configs.VPath lp) (configs.VPath cp) (configs.VStr cm)
        hid hun (configs.VBool o) (configs.VStr tv) (configs.VBool s)
    /\ (cm = "ssh" \/ cm = "local_filesystem")
    /\ optional_str hid /\ optional_str hun
    /\ (tv = "v" \/ tv = "vv")
    /\ path_accepted (configs.project_name c) lp
    /\ path_accepted (configs.project_name c) cp
    /\ is_dir (configs.parent lp) = true
    /\ (cm = "local_filesystem" -> is_dir (configs.parent cp) = true)
    /\ (cm = "ssh" -> configs.falsy hid = false /\ configs.falsy hun = false)
    /\ make_folders_ok (configs.VPath lp) = true.

(** The two errors of [check_dict_values_raise_on_fail] that come after the
    type check has already looked at the same values. *)
Definition shadowed_error (e : configs.raised) : Prop :=
  e = configs.ConfigError configs.BadConnectionMethod
  \/ e = configs.ConfigError configs.BadTransferVerbosity.

(** A config for a connection by ssh whose central path lies in a folder
    that the local machine does not have. *)
Definition ssh_config : configs.Configs :=
  {| configs.project_name := "project";
     configs.data :=
       canonical_layout
         (configs.VPath {| configs.anchor := "/"; configs.parts := ["local"; "project"] |})
         (configs.VPath {| configs.anchor := "/"; configs.parts := ["nowhere"; "project"] |})
         (configs.VStr "ssh") (configs.VStr "host") (configs.VStr "user")
         (configs.VBool false) (configs.VStr "v") (configs.VBool true) |}.

(** The file system of a machine that has the folder [/local] only. *)
Definition only_local (p : configs.Path) : bool :=
  String.eqb (configs.as_posix p) "/local".

(** * Properties *)

(** ** The effect monad *)

Section RunFacts.
Context {E W : Type}.

Lemma outcome_bind {A B} (m : run E W A) (k : A -> run E W B) :
  outcome (bind m k) =
  match outcome m with
  | inl e => inl e
  | inr a => outcome (k a)
  end.
Proof. unfold bind. destruct (outcome m); reflexivity. Qed.

Lemma warned_bind {A B} (m : run E W A) (k : A -> run E W B) :
  warned (bind m k) =
  match outcome m with
  | inl _ => warned m
  | inr a => warned m ++ warned (k a)
  end.
Proof. unfold bind. destruct (outcome m); reflexivity. Qed.

Lemma bind_ret_l {A B} (a : A) (k : A -> run E W B) : bind (ret a) k = k a.
Proof. unfold bind, ret. simpl. destruct (k a); reflexivity. Qed.

Lemma bind_raise {A B} (e : E) (k : A -> run E W B) : bind (raise e) k = raise e.
Proof. reflexivity. Qed.

Lemma for_each_ret {A B} (f : A -> run E W B) (g : A -> B) (l : list A) :
  (forall a, a ∈ l -> f a = ret (g a)) ->
  for_each f l = ret (map g l).
Proof.
  induction l as [|a l IH]; intros Hf; simpl.
  - reflexivity.
  - rewrite (Hf a) by left. rewrite bind_ret_l.
    rewrite IH by (intros b Hb; apply Hf; right; exact Hb).
    rewrite bind_ret_l. reflexivity.
Qed.

End RunFacts.

(** ** Strings and decimal numerals *)

Section StringFacts.

Lemma append_cons c s t : String c s +:+ t = String c (s +:+ t).
Proof. reflexivity. Qed.

Lemma append_nil_l s : "" +:+ s = s.
Proof. reflexivity. Qed.

Lemma append_nil_r s : s +:+ "" = s.
Proof. induction s as [|c s IH]; [reflexivity|]. rewrite append_cons, IH. reflexivity. Qed.

Lemma append_assoc s t u : (s +:+ t) +:+ u = s +:+ (t +:+ u).
Proof.
  induction s as [|c s IH]; [reflexivity|].
  rewrite !append_cons, IH. reflexivity.
Qed.

Lemma len_append s t : Py.len (s +:+ t) = (Py.len s + Py.len t)%nat.
Proof.
  induction s as [|c s IH]; [reflexivity|].
  rewrite append_cons. unfold Py.len in *. simpl. rewrite IH. reflexivity.
Qed.

Lemma len_zeros n : Py.len (Py.zeros n) = n.
Proof. induction n as [|n IH]; [reflexivity|]. unfold Py.len in *. simpl. rewrite IH. reflexivity. Qed.

Lemma pow10_pos (w : nat) : (0 < 10 ^ N.of_nat w)%N.
Proof. assert (10 ^ N.of_nat w <> 0)%N by (apply N.pow_nonzero; lia). lia. Qed.

Lemma str_of_N_aux_len_ge fuel n acc :
  (Py.len acc <= Py.len (Py.str_of_N_aux fuel n acc))%nat.
Proof.
  revert n acc. induction fuel as [|f IH]; intros n acc; simpl; [lia|].
  destruct (n / 10 =? 0)%N.
  - unfold Py.len. simpl. lia.
  - etransitivity; [|apply IH]. unfold Py.len. simpl. lia.
Qed.

(** A number that is at least [10^w] has more than [w] digits. *)
Lemma str_of_N_aux_len_lower fuel : forall n acc (w : nat),
  (n < 2 ^ N.of_nat fuel)%N -> (10 ^ N.of_nat w <= n)%N ->
  (w + 1 + Py.len acc <= Py.len (Py.str_of_N_aux fuel n acc))%nat.
Proof.
  induction fuel as [|f IH]; intros n acc w Hfuel Hw.
  - simpl in Hfuel. pose proof (pow10_pos w). lia.
  - cbn [Py.str_of_N_aux].
    destruct (N.eqb_spec (n / 10) 0) as [Hq|Hq].
    + assert (n < 10)%N.
      { destruct (N.lt_ge_cases n 10) as [?|Hge]; [assumption|].
        apply (N.Div0.div_le_mono _ _ 10) in Hge. rewrite N.div_same in Hge by lia. lia. }
      destruct w as [|w].
      * unfold Py.len. simpl. lia.
      * exfalso. rewrite Nat2N.inj_succ, N.pow_succ_r' in Hw.
        pose proof (pow10_pos w). lia.
    + destruct w as [|w].
      * etransitivity; [|apply str_of_N_aux_len_ge]. unfold Py.len. simpl. lia.
      * etransitivity; [|apply (IH _ _ w)].
        -- unfold Py.len. simpl. lia.
        -- rewrite Nat2N.inj_succ, N.pow_succ_r' in Hfuel.
           apply N.Div0.div_lt_upper_bound. lia.
        -- rewrite Nat2N.inj_succ, N.pow_succ_r' in Hw.
           apply N.div_le_lower_bound; lia.
Qed.

(** A number below [10^w] has at most [w] digits. *)
Lemma str_of_N_aux_len_upper fuel : forall n acc (w : nat),
  (n < 10 ^ N.of_nat w)%N -> (0 < w)%nat ->
  (Py.len (Py.str_of_N_aux fuel n acc) <= w + Py.len acc)%nat.
Proof.
  induction fuel as [|f IH]; intros n acc w Hn Hw.
  - simpl. lia.
  - cbn [Py.str_of_N_aux].
    destruct (N.eqb_spec (n / 10) 0) as [Hq|Hq].
    + unfold Py.len. simpl. lia.
    + destruct w as [|w]; [lia|].
      rewrite Nat2N.inj_succ, N.pow_succ_r' in Hn.
      assert (Hdiv : (n / 10 < 10 ^ N.of_nat w)%N)
        by (apply N.Div0.div_lt_upper_bound; lia).
      destruct w as [|w].
      * change (N.of_nat 0) with 0%N in Hdiv. rewrite N.pow_0_r in Hdiv.
        exfalso. apply Hq, N.lt_1_r, Hdiv.
      * etransitivity; [apply (IH _ _ (S w)); [exact Hdiv | lia]|].
        unfold Py.len. simpl. lia.
Qed.

Lemma log2_fuel n : (n < 2 ^ N.of_nat (S (N.to_nat (N.log2 n))))%N.
Proof.
  rewrite Nat2N.inj_succ, N2Nat.id.
  destruct n as [|p]; [reflexivity|].
  apply N.log2_spec. lia.
Qed.

Lemma len_str_of_N_lower n (w : nat) :
  (10 ^ N.of_nat w <= n)%N -> (w < Py.len (Py.str_of_N n))%nat.
Proof.
  intros Hw. unfold Py.str_of_N.
  pose proof (str_of_N_aux_len_lower _ n "" w (log2_fuel n) Hw) as H.
  change (Py.len "") with 0%nat in H. lia.
Qed.

Lemma len_str_of_N_upper n (w : nat) :
  (n < 10 ^ N.of_nat w)%N -> (0 < w)%nat -> (Py.len (Py.str_of_N n) <= w)%nat.
Proof.
  intros Hn Hw. unfold Py.str_of_N.
  pose proof (str_of_N_aux_len_upper (S (N.to_nat (N.log2 n))) n "" w Hn Hw) as H.
  change (Py.len "") with 0%nat in H. lia.
Qed.

End StringFacts.

Section NumeralFacts.

Lemma digit_char_spec d :
  (d < 10)%N ->
  Py.is_digit (Py.digit_char d) = true /\ Py.digit_val (Py.digit_char d) = d.
Proof.
  intros Hd.
  assert (Hcases : d = 0%N \/ d = 1%N \/ d = 2%N \/ d = 3%N \/ d = 4%N \/
                   d = 5%N \/ d = 6%N \/ d = 7%N \/ d = 8%N \/ d = 9%N) by lia.
  repeat (destruct Hcases as [-> | Hcases]; [split; reflexivity|]).
  subst d. split; reflexivity.
Qed.

Lemma mod10_lt n : (n mod 10 < 10)%N.
Proof. apply N.mod_lt. discriminate. Qed.

Lemma all_digits_app s t :
  Py.all_digits (s +:+ t) = Py.all_digits s && Py.all_digits t.
Proof.
  induction s as [|c s IH]; [reflexivity|].
  rewrite append_cons. simpl. rewrite IH, andb_assoc. reflexivity.
Qed.

Lemma all_digits_zeros n : Py.all_digits (Py.zeros n) = true.
Proof. induction n as [|n IH]; [reflexivity|]. simpl. exact IH. Qed.

Lemma str_of_N_aux_app fuel : forall n acc,
  Py.str_of_N_aux fuel n acc = Py.str_of_N_aux fuel n "" +:+ acc.
Proof.
  induction fuel as [|f IH]; intros n acc; [reflexivity|].
  cbn [Py.str_of_N_aux]. destruct (n / 10 =? 0)%N; [reflexivity|].
  rewrite IH, (IH _ (String _ "")), append_assoc. reflexivity.
Qed.

Lemma all_digits_str_of_N_aux fuel : forall n acc,
  Py.all_digits acc = true ->
  Py.all_digits (Py.str_of_N_aux fuel n acc) = true.
Proof.
  induction fuel as [|f IH]; intros n acc Hacc; [exact Hacc|].
  cbn [Py.str_of_N_aux].
  assert (Hd : Py.all_digits (String (Py.digit_char (n mod 10)) acc) = true).
  { simpl. rewrite Hacc, (proj1 (digit_char_spec _ (mod10_lt n))). reflexivity. }
  destruct (n / 10 =? 0)%N; [exact Hd | apply IH, Hd].
Qed.

Lemma all_digits_str_of_N n : Py.all_digits (Py.str_of_N n) = true.
Proof. apply all_digits_str_of_N_aux. reflexivity. Qed.

Lemma str_of_N_nonempty n : Py.str_of_N n <> "".
Proof.
  intros H. pose proof (len_str_of_N_lower n 0) as Hl.
  rewrite H in Hl. change (Py.len "") with 0%nat in Hl.
  destruct n as [|p]; [discriminate H|].
  assert (0 < 0)%nat; [apply Hl; simpl; lia | lia].
Qed.

Lemma digits_value_app s : forall a t,
  Py.digits_value a (s +:+ t) = Py.digits_value (Py.digits_value a s) t.
Proof.
  induction s as [|c s IH]; intros a t; [reflexivity|].
  rewrite append_cons. simpl. apply IH.
Qed.

Lemma digits_value_zeros n : Py.digits_value 0 (Py.zeros n) = 0%N.
Proof. induction n as [|n IH]; [reflexivity|]. simpl. exact IH. Qed.

Lemma digits_value_str_of_N_aux fuel : forall n,
  (n < 2 ^ N.of_nat fuel)%N ->
  Py.digits_value 0 (Py.str_of_N_aux fuel n "") = n.
Proof.
  induction fuel as [|f IH]; intros n Hn.
  - simpl in *. lia.
  - cbn [Py.str_of_N_aux].
    pose proof (proj2 (digit_char_spec _ (mod10_lt n))) as Hd.
    pose proof (N.div_mod n 10 ltac:(discriminate)) as Hdm.
    destruct (N.eqb_spec (n / 10) 0) as [Hq|Hq].
    + simpl. rewrite Hd. rewrite Hq in Hdm. lia.
    + rewrite str_of_N_aux_app, digits_value_app, IH.
      * simpl. rewrite Hd. lia.
      * rewrite Nat2N.inj_succ, N.pow_succ_r' in Hn.
        apply N.Div0.div_lt_upper_bound. lia.
Qed.

(** Reading a printed number gives the number back. *)
Lemma digits_value_str_of_N n : Py.digits_value 0 (Py.str_of_N n) = n.
Proof. apply digits_value_str_of_N_aux, log2_fuel. Qed.

Lemma str_nonneg (i : Z) : 0 <= i -> Py.str i = Py.str_of_N (Z.to_N i).
Proof. intros Hi. destruct i as [|p|p]; [reflexivity | reflexivity | lia]. Qed.

(** On a run of digits [zfill] only adds zeros in front. *)
Lemma zfill_digits s (width : Z) :
  Py.all_digits s = true ->
  Py.zfill s width = Py.zeros (Z.to_nat (width - Z.of_nat (Py.len s))) +:+ s.
Proof.
  intros Hs. unfold Py.zfill.
  destruct (Z.geb_spec (Z.of_nat (Py.len s)) width) as [Hge|Hlt].
  - replace (Z.to_nat (width - Z.of_nat (Py.len s))) with 0%nat by lia.
    reflexivity.
  - destruct s as [|c rest].
    + rewrite append_nil_r. reflexivity.
    + simpl in Hs. apply andb_prop in Hs as [Hc _].
      destruct (Ascii.eqb_spec c "+") as [->|_]; [discriminate Hc|].
      destruct (Ascii.eqb_spec c "-") as [->|_]; [discriminate Hc|].
      reflexivity.
Qed.

(** The numeral that [get_next_sub_or_ses_number] builds for a number that
    is not negative: zeros followed by the decimal digits, at least [width]
    characters long, and read back as the number. *)
Lemma zfill_str_spec (i width : Z) :
  0 <= i ->
  let numeral := Py.zfill (Py.str i) width in
  numeral = Py.zeros (Z.to_nat (width - Z.of_nat (Py.len (Py.str i)))) +:+ Py.str i
  /\ Py.all_digits numeral = true
  /\ numeral <> ""
  /\ Z.of_N (Py.digits_value 0 numeral) = i
  /\ Z.of_nat (Py.len numeral) = Z.max width (Z.of_nat (Py.len (Py.str i))).
Proof.
  intros Hi numeral. subst numeral.
  rewrite (str_nonneg i Hi).
  rewrite (zfill_digits _ _ (all_digits_str_of_N _)).
  split; [reflexivity|]. split; [|split; [|split]].
  - rewrite all_digits_app, all_digits_zeros, all_digits_str_of_N. reflexivity.
  - intros H. apply (f_equal Py.len) in H. rewrite len_append in H.
    pose proof (str_of_N_nonempty (Z.to_N i)) as Hne.
    destruct (Py.str_of_N (Z.to_N i)); [congruence|].
    unfold Py.len in H. simpl in H. lia.
  - rewrite digits_value_app, digits_value_zeros, digits_value_str_of_N. lia.
  - rewrite len_append, len_zeros. lia.
Qed.

End NumeralFacts.

(** ** [getters.py]: the number suggester *)

Section GetterFacts.

Lemma primary_number_parse prefix name w n :
  primary_number prefix name = Some (w, n) ->
  exists p, parse_name name prefix = inr p
            /\ Py.len (primary_value p) = w
            /\ utils.sub_or_ses_value_to_int (primary_value p) = ret n.
Proof.
  unfold primary_number, utils.sub_or_ses_value_to_int.
  destruct (parse_name name prefix) as [i|p]; [discriminate|].
  cbn zeta.
  destruct (negb (String.eqb (primary_value p) "") && Py.all_digits (primary_value p))
    eqn:Hc; [|discriminate].
  intros [= <- <-]. exists p. rewrite Hc. repeat split; reflexivity.
Qed.

Lemma list_to_set_constant (l : list nat) (w : nat) :
  l <> [] -> (forall x, x ∈ l -> x = w) ->
  (list_to_set l : gset nat) = {[ w ]}.
Proof.
  intros Hne Hall. apply set_eq. intros x.
  rewrite elem_of_list_to_set, elem_of_singleton. split; [apply Hall|].
  intros ->. destruct l as [|y l]; [congruence|].
  rewrite (Hall y) by left. left.
Qed.

Lemma py_max_elem (l : list Z) (y : Z) : Py.max l = Some y -> y ∈ l.
Proof.
  revert y. induction l as [|x l IH]; intros y Hmax; [discriminate|].
  simpl in Hmax. destruct (Py.max l) as [y'|].
  - injection Hmax as <-. destruct (Z.max_spec x y') as [[_ ->]|[_ ->]].
    + right. apply IH. reflexivity.
    + left.
  - injection Hmax as <-. left.
Qed.

Lemma py_max_spec (l : list Z) (m : Z) :
  m ∈ l -> (forall x, x ∈ l -> x <= m) -> Py.max l = Some m.
Proof.
  induction l as [|x l IH]; intros Hin Hle.
  - inversion Hin.
  - assert (Hx : x <= m) by (apply Hle; left).
    simpl. destruct (Py.max l) as [y|] eqn:Hmax.
    + assert (Hy : y <= m) by (apply Hle; right; apply py_max_elem, Hmax).
      apply elem_of_cons in Hin as [Heq|Hin].
      * f_equal. lia.
      * assert (Hm : Some y = Some m).
        { apply IH; [exact Hin|].
          intros v Hv. apply Hle. right. exact Hv. }
        injection Hm as ->. f_equal. lia.
    + destruct l as [|z l].
      * apply elem_of_cons in Hin as [Heq|Hin]; [congruence|inversion Hin].
      * simpl in Hmax. destruct (Py.max l); discriminate.
Qed.

(** The core of the suggester on a list of names with one digit width. *)
Lemma get_max_uniform all_folders prefix default (w : nat) (m : Z) :
  all_folders <> [] ->
  (forall name, name ∈ all_folders ->
     exists n, primary_number prefix name = Some (w, n) /\ n <= m) ->
  (exists name, name ∈ all_folders /\ primary_number prefix name = Some (w, m)) ->
  outcome (get_max_sub_or_ses_num_and_value_length all_folders prefix default)
  = inr (m, Z.of_nat w).
Proof.
  intros Hne Hall [top [Htop Hm]].
  unfold get_max_sub_or_ses_num_and_value_length.
  destruct all_folders as [|name0 rest] eqn:Hfold; [congruence|].
  rewrite <- Hfold in *. replace (length all_folders =? 0)%nat with false
    by (rewrite Hfold; reflexivity).
  set (value_of := fun name =>
         match parse_name name prefix with
         | inr p => primary_value p
         | inl _ => ""
         end).
  set (num_of := fun v => Z.of_N (Py.digits_value 0 v)).
  unfold utils.get_values_from_bids_formatted_name.
  rewrite (for_each_ret _ value_of).
  2:{ intros name Hin. destruct (Hall name Hin) as [n [Hn _]].
      apply primary_number_parse in Hn as [p [Hp _]].
      subst value_of. cbn beta. rewrite Hp. reflexivity. }
  rewrite bind_ret_l.
  assert (Hlen : forall x, x ∈ map Py.len (map value_of all_folders) -> x = w).
  { intros x Hx. apply list_elem_of_fmap in Hx as [v [-> Hv]].
    apply list_elem_of_fmap in Hv as [name [-> Hin]].
    destruct (Hall name Hin) as [n [Hn _]].
    apply primary_number_parse in Hn as [p [Hp [Hw _]]].
    subst value_of. cbn beta. rewrite Hp. exact Hw. }
  rewrite (list_to_set_constant _ w); [|rewrite Hfold; discriminate|exact Hlen].
  rewrite size_singleton. cbn [Nat.eqb negb].
  rewrite bind_ret_l.
  assert (Hhead : exists tl, map Py.len (map value_of all_folders) = w :: tl).
  { rewrite Hfold in *. simpl. eexists. f_equal.
    apply Hlen. simpl. left. }
  destruct Hhead as [tl ->]. rewrite bind_ret_l.
  rewrite (for_each_ret _ num_of).
  2:{ intros v Hv. apply list_elem_of_fmap in Hv as [name [-> Hin]].
      destruct (Hall name Hin) as [n [Hn _]].
      pose proof Hn as Hn'.
      apply primary_number_parse in Hn as [p [Hp [_ Hint]]].
      subst value_of num_of. cbn beta. rewrite Hp, Hint.
      unfold primary_number in Hn'. rewrite Hp in Hn'. cbn zeta in Hn'.
      destruct (negb (String.eqb (primary_value p) "") && Py.all_digits (primary_value p));
        [|discriminate].
      injection Hn' as _ <-. reflexivity. }
  rewrite bind_ret_l.
  rewrite outcome_bind.
  assert (Hmax : Py.max (merge_sort Z.le (map num_of (map value_of all_folders))) = Some m).
  { apply py_max_spec.
    - rewrite merge_sort_Permutation.
      apply list_elem_of_fmap. exists (value_of top). split.
      + apply primary_number_parse in Hm as Hm'. destruct Hm' as [p [Hp _]].
        unfold primary_number in Hm. subst value_of num_of. cbn beta.
        rewrite Hp in *. cbn zeta in Hm.
        destruct (negb (String.eqb (primary_value p) "") && Py.all_digits (primary_value p));
          [|discriminate].
        injection Hm as _ <-. reflexivity.
      + apply list_elem_of_fmap. exists top. auto.
    - intros x. rewrite merge_sort_Permutation. intros Hx.
      apply list_elem_of_fmap in Hx as [v [-> Hv]].
      apply list_elem_of_fmap in Hv as [name [-> Hin]].
      destruct (Hall name Hin) as [n [Hn Hle]].
      apply primary_number_parse in Hn as Hn'. destruct Hn' as [p [Hp _]].
      unfold primary_number in Hn. subst value_of num_of. cbn beta.
      rewrite Hp in *. cbn zeta in Hn.
      destruct (negb (String.eqb (primary_value p) "") && Py.all_digits (primary_value p));
        [|discriminate].
      injection Hn as _ <-. exact Hle. }
  rewrite Hmax.
  match goal with
  | |- context [outcome (if ?b then _ else _)] => destruct b
  end; reflexivity.
Qed.

End GetterFacts.

Section NextNumber.

Variable search : option string -> string -> bool -> FolderNames.
Variables (sub : option string) (search_str : string).
Variables (local_only return_with_prefix : bool).

Let names := scanned (search sub search_str local_only).
Let prefix := prefix_of sub.
Let with_prefix (numeral : string) : string :=
  if return_with_prefix then prefix +:+ "-" +:+ numeral else numeral.

Lemma all_folders_elem name :
  name ∈ elements (list_to_set names : gset string) <-> name ∈ names.
Proof. rewrite elem_of_elements, elem_of_list_to_set. reflexivity. Qed.

Lemma all_folders_nonempty :
  names <> [] -> elements (list_to_set names : gset string) <> [].
Proof.
  intros Hne Hnil. destruct names as [|name rest] eqn:E; [congruence|].
  assert (Hin : name ∈ elements (list_to_set (name :: rest) : gset string)).
  { rewrite elem_of_elements, elem_of_list_to_set. left. }
  rewrite Hnil in Hin. inversion Hin.
Qed.

Lemma primary_number_bounds name (w : nat) n :
  primary_number prefix name = Some (w, n) -> (0 < w)%nat /\ 0 <= n.
Proof.
  unfold primary_number. destruct (parse_name name prefix) as [i|p]; [discriminate|].
  cbn zeta. destruct (String.eqb_spec (primary_value p) "") as [Hv|Hv]; [discriminate|].
  destruct (negb false && Py.all_digits (primary_value p)); [|discriminate].
  intros [= <- <-]. split; [|lia].
  destruct (primary_value p); [congruence|]. unfold Py.len. simpl. lia.
Qed.

Lemma get_next_uniform default (w : nat) (m : Z) :
  names <> [] ->
  (forall name, name ∈ names ->
     exists n, primary_number prefix name = Some (w, n) /\ n <= m) ->
  (exists name, name ∈ names /\ primary_number prefix name = Some (w, m)) ->
  outcome (get_next_sub_or_ses_number search sub search_str
             local_only return_with_prefix default)
  = inr (with_prefix (Py.zfill (Py.str (m + 1)) (Z.of_nat w))).
Proof.
  intros Hne Hall Htop.
  unfold get_next_sub_or_ses_number. rewrite outcome_bind.
  fold (scanned (search sub search_str local_only)). fold names.
  fold (prefix_of sub). fold prefix.
  rewrite (get_max_uniform _ prefix _ w m).
  - reflexivity.
  - apply all_folders_nonempty, Hne.
  - intros name Hin. apply Hall, all_folders_elem, Hin.
  - destruct Htop as [name [Hin Hm]]. exists name. split; [|exact Hm].
    apply all_folders_elem, Hin.
Qed.

End NextNumber.

(** Membership hypotheses over a literal list of names, case by case. *)
Ltac each_name H :=
  repeat (apply elem_of_cons in H as [-> | H]); [.. | inversion H].

(** C1. For a non-empty set of existing names whose primary numeric values
    all have digit width [w] and whose largest number is [m],
    [get_next_sub_or_ses_number] returns [m + 1] padded with zeros to width
    [w]: zeros followed by the decimal digits of [m + 1], which read back as
    [m + 1] and are exactly [w] characters when [m + 1] fits; [sub-] or
    [ses-] is put in front exactly when the prefixed form is asked for. *)
Theorem C1_next_number_uniform_width
    (search : option string -> string -> bool -> FolderNames)
    (sub : option string) (search_str : string)
    (local_only return_with_prefix : bool) (default : Z) (w : nat) (m : Z) :
  let names := scanned (search sub search_str local_only) in
  let prefix := prefix_of sub in
  names <> [] ->
  (forall name, name ∈ names ->
     exists n, primary_number prefix name = Some (w, n) /\ n <= m) ->
  (exists name, name ∈ names /\ primary_number prefix name = Some (w, m)) ->
  let numeral := Py.zeros (w - Py.len (Py.str (m + 1))) +:+ Py.str (m + 1) in
  outcome (get_next_sub_or_ses_number search sub search_str
             local_only return_with_prefix default)
  = inr (if return_with_prefix then prefix +:+ "-" +:+ numeral else numeral)
  /\ utils.sub_or_ses_value_to_int numeral = ret (m + 1)
  /\ (m + 1 < 10 ^ Z.of_nat w -> Py.len numeral = w).
Proof.
  intros names prefix Hne Hall Htop numeral.
  assert (Hbounds : (0 < w)%nat /\ 0 <= m).
  { destruct Htop as [name [_ Hm]]. eapply primary_number_bounds, Hm. }
  destruct Hbounds as [Hw Hm0].
  destruct (zfill_str_spec (m + 1) (Z.of_nat w) ltac:(lia))
    as [Hshape [Hdigits [Hnonempty [Hvalue Hlen]]]].
  assert (Hnum : Py.zfill (Py.str (m + 1)) (Z.of_nat w) = numeral).
  { rewrite Hshape. subst numeral. f_equal. f_equal. lia. }
  rewrite Hnum in *.
  split; [|split].
  - rewrite (get_next_uniform search sub search_str local_only
               return_with_prefix default w m Hne Hall Htop).
    rewrite Hnum. reflexivity.
  - unfold utils.sub_or_ses_value_to_int.
    rewrite Hdigits, Hvalue.
    destruct (String.eqb_spec numeral "") as [He|_]; [contradiction|reflexivity].
  - intros Hfit.
    assert (Hstr : (Py.len (Py.str (m + 1)) <= w)%nat).
    { rewrite str_nonneg by lia. apply len_str_of_N_upper; [|exact Hw].
      apply N2Z.inj_lt. rewrite Z2N.id, N2Z.inj_pow, nat_N_Z by lia. exact Hfit. }
    lia.
Qed.

Lemma C1_next_number_uniform_width_witness :
  outcome (get_next_sub_or_ses_number
             (scan_of ["sub-001"; "sub-003"] ["sub-002"; "sub-003"])
             None "sub-*" false true 3)
  = inr "sub-004"
  /\ outcome (get_next_sub_or_ses_number
                (scan_of ["ses-07"; "ses-09_date-20240101"] [])
                (Some "sub-001") "ses-*" false false 3)
     = inr "10".
Proof.
  split.
  - refine (proj1 (C1_next_number_uniform_width
                     (scan_of ["sub-001"; "sub-003"] ["sub-002"; "sub-003"])
                     None "sub-*" false true 3 3%nat 3 _ _ _)).
    + discriminate.
    + intros name H. each_name H; eexists; (split; [vm_compute; reflexivity | lia]).
    + exists "sub-003". split; [right; left | vm_compute; reflexivity].
  - refine (proj1 (C1_next_number_uniform_width
                     (scan_of ["ses-07"; "ses-09_date-20240101"] [])
                     (Some "sub-001") "ses-*" false false 3 2%nat 9 _ _ _)).
    + discriminate.
    + intros name H. each_name H; eexists; (split; [vm_compute; reflexivity | lia]).
    + exists "ses-09_date-20240101". split; [right; left | vm_compute; reflexivity].
Defined.

(** C5. With no existing names and the default digit width 3,
    [get_next_sub_or_ses_number] returns ["001"], as [sub-001] or [ses-001]
    when the prefixed form is asked for; the padding to the width the caller
    gives applies with and without the prefix. *)
Theorem C5_next_number_empty_project
    (search : option string -> string -> bool -> FolderNames)
    (sub : option string) (search_str : string)
    (local_only return_with_prefix : bool) :
  scanned (search sub search_str local_only) = [] ->
  get_next_sub_or_ses_number search sub search_str local_only
    return_with_prefix default_num_value_digits_default
  = ret (if return_with_prefix then prefix_of sub +:+ "-001" else "001")
  /\ forall width : nat,
       get_next_sub_or_ses_number search sub search_str local_only
         return_with_prefix (Z.of_nat (S width))
       = ret (if return_with_prefix
              then prefix_of sub +:+ "-" +:+ Py.zeros width +:+ "1"
              else Py.zeros width +:+ "1").
Proof.
  intros Hnil. unfold scanned in Hnil.
  assert (Hgen : forall d,
    get_next_sub_or_ses_number search sub search_str local_only
      return_with_prefix d
    = ret (if return_with_prefix
           then prefix_of sub +:+ "-" +:+ Py.zfill "1" d else Py.zfill "1" d)).
  { intros d. unfold get_next_sub_or_ses_number. rewrite Hnil.
    change (list_to_set [] : gset string) with (∅ : gset string).
    rewrite elements_empty. unfold get_max_sub_or_ses_num_and_value_length.
    cbn [length Nat.eqb]. rewrite bind_ret_l. reflexivity. }
  split.
  - rewrite Hgen. reflexivity.
  - intros width. rewrite Hgen.
    assert (Hz : Py.zfill "1" (Z.of_nat (S width)) = Py.zeros width +:+ "1").
    { rewrite zfill_digits by reflexivity. change (Py.len "1") with 1%nat.
      f_equal. f_equal. lia. }
    rewrite Hz. reflexivity.
Qed.

Lemma C5_next_number_empty_project_witness :
  get_next_sub_or_ses_number (scan_of [] []) None "sub-*" false true 3
  = ret "sub-001"
  /\ get_next_sub_or_ses_number (scan_of [] []) (Some "sub-001") "ses-*" true true 3
     = ret "ses-001"
  /\ get_next_sub_or_ses_number (scan_of [] []) None "sub-*" false false 3
     = ret "001".
Proof.
  split; [|split].
  - exact (proj1 (C5_next_number_empty_project (scan_of [] [])
                    None "sub-*" false true eq_refl)).
  - exact (proj1 (C5_next_number_empty_project (scan_of [] [])
                    (Some "sub-001") "ses-*" true true eq_refl)).
  - exact (proj1 (C5_next_number_empty_project (scan_of [] [])
                    None "sub-*" false false eq_refl)).
Defined.

(** C9. When all existing primary values have digit width [w] and the next
    number [m + 1] needs more than [w] digits, [get_next_sub_or_ses_number]
    still succeeds: it returns the decimal digits of [m + 1], all of them,
    which are more than [w]. *)
Theorem C9_next_number_outgrows_width
    (search : option string -> string -> bool -> FolderNames)
    (sub : option string) (search_str : string)
    (local_only return_with_prefix : bool) (default : Z) (w : nat) (m : Z) :
  let names := scanned (search sub search_str local_only) in
  let prefix := prefix_of sub in
  names <> [] ->
  (forall name, name ∈ names ->
     exists n, primary_number prefix name = Some (w, n) /\ n <= m) ->
  (exists name, name ∈ names /\ primary_number prefix name = Some (w, m)) ->
  10 ^ Z.of_nat w <= m + 1 ->
  outcome (get_next_sub_or_ses_number search sub search_str
             local_only return_with_prefix default)
  = inr (if return_with_prefix then prefix +:+ "-" +:+ Py.str (m + 1)
         else Py.str (m + 1))
  /\ (w < Py.len (Py.str (m + 1)))%nat.
Proof.
  intros names prefix Hne Hall Htop Hbig.
  assert (Hm0 : 0 <= m).
  { destruct Htop as [name [_ Hm]]. eapply primary_number_bounds, Hm. }
  assert (Hlen : (w < Py.len (Py.str (m + 1)))%nat).
  { rewrite str_nonneg by lia. apply len_str_of_N_lower.
    apply N2Z.inj_le. rewrite Z2N.id, N2Z.inj_pow, nat_N_Z by lia. exact Hbig. }
  split; [|exact Hlen].
  rewrite (get_next_uniform search sub search_str local_only
             return_with_prefix default w m Hne Hall Htop).
  assert (Hz : Py.zfill (Py.str (m + 1)) (Z.of_nat w) = Py.str (m + 1)).
  { unfold Py.zfill. destruct (Z.geb_spec (Z.of_nat (Py.len (Py.str (m + 1)))) (Z.of_nat w));
      [reflexivity | lia]. }
  rewrite Hz. reflexivity.
Qed.

Lemma C9_next_number_outgrows_width_witness :
  outcome (get_next_sub_or_ses_number (scan_of ["sub-999"] ["sub-998"])
             None "sub-*" false true 3)
  = inr "sub-1000"
  /\ (3 < Py.len "1000")%nat.
Proof.
  refine (C9_next_number_outgrows_width (scan_of ["sub-999"] ["sub-998"])
            None "sub-*" false true 3 3%nat 999 _ _ _ _).
  - discriminate.
  - intros name H. each_name H; eexists; (split; [vm_compute; reflexivity | lia]).
  - exists "sub-999". split; [left | vm_compute; reflexivity].
  - vm_compute. discriminate.
Defined.

(** ** [manager/utils.py]: prefixing *)

Section PrefixFacts.

Lemma slice_to_prefix p : forall s,
  String.eqb (Py.slice_to (Py.len p) s) p = Py.startswith p s.
Proof.
  unfold Py.slice_to, Py.startswith, Py.len.
  induction p as [|a p IH]; intros s.
  - destruct s; reflexivity.
  - destruct s as [|b s]; [reflexivity|].
    simpl. rewrite IH. destruct (ascii_dec a b) as [->|Hne].
    + rewrite Ascii.eqb_refl. reflexivity.
    + destruct (Ascii.eqb_spec b a) as [->|_]; [congruence|reflexivity].
Qed.

Lemma startswith_append p s : Py.startswith p (p +:+ s) = true.
Proof.
  unfold Py.startswith. induction p as [|a p IH]; [destruct s; reflexivity|].
  rewrite append_cons. simpl. destruct (ascii_dec a a); [exact IH|congruence].
Qed.

Lemma ensure_prefixes_map names prefix :
  manager.ensure_prefixes_on_list_of_names names prefix
  = map (prefixed prefix) names.
Proof.
  unfold manager.ensure_prefixes_on_list_of_names, prefixed.
  apply map_ext. intros name. rewrite slice_to_prefix.
  destruct (Py.startswith prefix name); reflexivity.
Qed.

Lemma prefixed_startswith prefix name :
  Py.startswith prefix (prefixed prefix name) = true.
Proof.
  unfold prefixed. destruct (Py.startswith prefix name) eqn:E;
    [exact E | apply startswith_append].
Qed.

Lemma prefixed_idem prefix name :
  prefixed prefix (prefixed prefix name) = prefixed prefix name.
Proof.
  unfold prefixed at 1. rewrite prefixed_startswith. reflexivity.
Qed.

Lemma size_list_to_set_le (l : list string) :
  (size (list_to_set l : gset string) <= length l)%nat.
Proof.
  induction l as [|x l IH]; [rewrite list_to_set_nil, size_empty; simpl; lia|].
  rewrite list_to_set_cons. simpl.
  destruct (decide (x ∈ l)) as [Hin|Hnin].
  - replace ({[x]} ∪ list_to_set l : gset string) with (list_to_set l : gset string).
    + lia.
    + apply set_eq. intros y. rewrite elem_of_union, elem_of_singleton, elem_of_list_to_set.
      split; [auto | intros [->|?]; assumption].
  - rewrite size_union, size_singleton; [lia|].
    apply disjoint_singleton_l. rewrite elem_of_list_to_set. exact Hnin.
Qed.

Lemma size_list_to_set_NoDup (l : list string) :
  size (list_to_set l : gset string) = length l -> NoDup l.
Proof.
  induction l as [|x l IH]; intros Hsize; [constructor|].
  rewrite list_to_set_cons in Hsize. simpl in Hsize.
  pose proof (size_list_to_set_le l) as Hle.
  destruct (decide (x ∈ l)) as [Hin|Hnin].
  - exfalso.
    replace ({[x]} ∪ list_to_set l : gset string) with (list_to_set l : gset string)
      in Hsize; [lia|].
    apply set_eq. intros y. rewrite elem_of_union, elem_of_singleton, elem_of_list_to_set.
    split; [auto | intros [->|?]; assumption].
  - rewrite size_union, size_singleton in Hsize.
    + constructor; [exact Hnin | apply IH; lia].
    + apply disjoint_singleton_l. rewrite elem_of_list_to_set. exact Hnin.
Qed.

Lemma process_names_strings names prefix :
  manager.process_names (manager.NList (map manager.EStr names)) prefix
  = if bool_decide (NoDup (map (prefixed prefix) names))
    then ret (map (prefixed prefix) names)
    else manager.raise_error manager.duplicates_message.
Proof.
  unfold manager.process_names.
  assert (Hstr : existsb (fun ele => negb (manager.is_str ele))
                   (map manager.EStr names) = false).
  { induction names as [|n names IH]; [reflexivity | exact IH]. }
  assert (Homap : omap (fun e => match e with
                                 | manager.EStr s => Some s
                                 | manager.ENotStr => None
                                 end) (map manager.EStr names) = names).
  { clear Hstr. induction names as [|n names IH]; [reflexivity|].
    cbn. f_equal. exact IH. }
  rewrite Hstr, Homap, bind_ret_l, ensure_prefixes_map.
  set (out := map (prefixed prefix) names).
  destruct (bool_decide_reflect (NoDup out)) as [Hnd|Hdup].
  - rewrite (size_list_to_set out Hnd), Nat.eqb_refl. cbn [negb].
    rewrite bind_ret_l. reflexivity.
  - destruct (Nat.eqb_spec (length out) (size (list_to_set out : gset string)))
      as [Heq|Hneq]; [|reflexivity].
    exfalso. apply Hdup, size_list_to_set_NoDup. symmetry. exact Heq.
Qed.

End PrefixFacts.

(** C10. For a list of name strings without duplicates after prefixing,
    [process_names] returns a list of the same length and order, in which a
    name that starts with the prefix string is unchanged and any other name
    has the prefix string in front; processing the result again changes
    nothing; with the prefix string [sub-], [00011] becomes [sub-00011]. *)
Theorem C10_process_names_prefixes
    (names : list string) (prefix : string) :
  NoDup (manager.ensure_prefixes_on_list_of_names names prefix) ->
  exists out,
    manager.process_names (manager.NList (map manager.EStr names)) prefix = ret out
    /\ length out = length names
    /\ (forall (i : nat) name, names !! i = Some name ->
          out !! i = Some (if Py.startswith prefix name then name
                           else prefix +:+ name))
    /\ manager.process_names (manager.NList (map manager.EStr out)) prefix = ret out
    /\ manager.process_names
         (manager.NList (map manager.EStr ["00011"; "sub-00002"; "30303"])) "sub-"
       = ret ["sub-00011"; "sub-00002"; "sub-30303"].
Proof.
  rewrite ensure_prefixes_map. intros Hnd.
  exists (map (prefixed prefix) names).
  assert (Hidem : map (prefixed prefix) (map (prefixed prefix) names)
                  = map (prefixed prefix) names).
  { rewrite map_map. apply map_ext. intros name. apply prefixed_idem. }
  split; [|split; [|split; [|split]]].
  - rewrite process_names_strings, bool_decide_eq_true_2 by exact Hnd. reflexivity.
  - apply length_map.
  - intros i name Hi. rewrite list_lookup_fmap, Hi. reflexivity.
  - rewrite process_names_strings, Hidem, bool_decide_eq_true_2 by exact Hnd.
    reflexivity.
  - vm_compute. reflexivity.
Qed.

Lemma C10_process_names_prefixes_witness :
  exists out,
    manager.process_names
      (manager.NList (map manager.EStr ["ses-00001"; "50432"])) "ses-" = ret out
    /\ length out = 2%nat
    /\ out !! 1%nat = Some "ses-50432"
    /\ manager.process_names (manager.NList (map manager.EStr out)) "ses-" = ret out.
Proof.
  destruct (C10_process_names_prefixes ["ses-00001"; "50432"] "ses-")
    as [out [Hout [Hlen [Hnth [Hidem _]]]]].
  - vm_compute. repeat constructor; rewrite ?elem_of_cons, ?elem_of_nil;
      intros H; repeat destruct H as [H|H]; try discriminate H; exact H.
  - exists out. split; [exact Hout|]. split; [exact Hlen|]. split; [|exact Hidem].
    apply (Hnth 1%nat "50432"). reflexivity.
Defined.

(** A list with a duplicate after prefixing is refused. *)
Lemma process_names_duplicates (names : list string) (prefix : string) :
  ~ NoDup (manager.ensure_prefixes_on_list_of_names names prefix) ->
  manager.process_names (manager.NList (map manager.EStr names)) prefix
  = raise (BaseException manager.duplicates_message).
Proof.
  rewrite ensure_prefixes_map. intros Hdup.
  rewrite process_names_strings, bool_decide_eq_false_2 by exact Hdup.
  reflexivity.
Qed.

(** With the bare prefix [sub] of the docstring nothing joins the prefix and
    the number. *)
Example process_names_bare_prefix :
  manager.process_names (manager.NList (map manager.EStr ["00011"])) "sub"
  = ret ["sub00011"].
Proof. vm_compute. reflexivity. Qed.

(** C8. The name [sub_100] with the expected prefix [sub] fails with
    [InvalidCharacter]: prefixing turns it into [sub-sub_100], whose primary
    value is the prefix literal [sub] again, and the parser rejects it; the
    same holds for [ses_100] with [ses]. *)
Theorem C8_prefix_as_value_rejected (c : Clock) :
  manager.ensure_prefixes_on_list_of_names ["sub_100"] "sub-" = ["sub-sub_100"]
  /\ parse_component "sub-sub" = inr {| key := "sub"; value := "sub" |}
  /\ parse_name "sub-sub_100" "sub" = inl (InvalidCharacter "sub")
  /\ outcome (process_and_parse_names c (manager.NStr "sub_100") "sub")
     = inl (NeuroBlueprintError
              "Invalid character in subject or session value: sub")
  /\ manager.ensure_prefixes_on_list_of_names ["ses_100"] "ses-" = ["ses-ses_100"]
  /\ parse_name "ses-ses_100" "ses" = inl (InvalidCharacter "ses")
  /\ outcome (process_and_parse_names c (manager.NStr "ses_100") "ses")
     = inl (NeuroBlueprintError
              "Invalid character in subject or session value: ses").
Proof. repeat split; vm_compute; reflexivity. Qed.

(** ** Tag expansion *)

Section ReplaceFacts.

Variables (body new : string).

Lemma prefix_cons a p b s :
  String.prefix (String a p) (String b s)
  = if ascii_dec a b then String.prefix p s else false.
Proof. reflexivity. Qed.

Lemma no_at_cons c s :
  no_at (String c s) = negb (Ascii.eqb c "@") && no_at s.
Proof. reflexivity. Qed.











End ReplaceFacts.

Section TagFacts.

Lemma digits_no_at s : Py.all_digits s = true -> no_at s = true.
Proof.
  induction s as [|ch s IH]; intros Hs; [reflexivity|].
  simpl in Hs. apply andb_prop in Hs as [Hc Hs].
  rewrite no_at_cons, IH by exact Hs.
  destruct (Ascii.eqb_spec ch "@") as [->|_]; [discriminate Hc|reflexivity].
Qed.

Lemma no_at_app s t : no_at (s +:+ t) = no_at s && no_at t.
Proof.
  induction s as [|ch s IH]; [reflexivity|].
  rewrite append_cons, !no_at_cons, IH, andb_assoc. reflexivity.
Qed.


Lemma zfill_N_digits n (w : nat) :
  Py.all_digits (Py.zfill (Py.str_of_N n) (Z.of_nat w)) = true
  /\ ((n < 10 ^ N.of_nat w)%N -> (0 < w)%nat ->
      Py.len (Py.zfill (Py.str_of_N n) (Z.of_nat w)) = w).
Proof.
  rewrite (zfill_digits _ _ (all_digits_str_of_N n)). split.
  - rewrite all_digits_app, all_digits_zeros, all_digits_str_of_N. reflexivity.
  - intros Hn Hw. pose proof (len_str_of_N_upper n w Hn Hw).
    rewrite len_append, len_zeros. lia.
Qed.

Lemma two_digits_spec n :
  Py.all_digits (two_digits n) = true
  /\ ((n < 100)%N -> Py.len (two_digits n) = 2%nat).
Proof.
  unfold two_digits. change 2 with (Z.of_nat 2).
  destruct (zfill_N_digits n 2) as [Hd Hl]. split; [exact Hd|].
  intros Hn. apply Hl; [exact Hn | lia].
Qed.

Lemma four_digits_spec n :
  Py.all_digits (four_digits n) = true
  /\ ((n < 10000)%N -> Py.len (four_digits n) = 4%nat).
Proof.
  unfold four_digits. change 4 with (Z.of_nat 4).
  destruct (zfill_N_digits n 4) as [Hd Hl]. split; [exact Hd|].
  intros Hn. apply Hl; [exact Hn | lia].
Qed.

Variable c : Clock.

Lemma format_date_digits : Py.all_digits (format_date c) = true.
Proof.
  unfold format_date. rewrite !all_digits_app.
  rewrite (proj1 (four_digits_spec (year c))), (proj1 (two_digits_spec (month c))),
    (proj1 (two_digits_spec (day c))). reflexivity.
Qed.

Lemma format_time_digits : Py.all_digits (format_time c) = true.
Proof.
  unfold format_time. rewrite !all_digits_app.
  rewrite (proj1 (two_digits_spec (hour c))), (proj1 (two_digits_spec (minute c))),
    (proj1 (two_digits_spec (second c))). reflexivity.
Qed.


Lemma format_datetime_no_at : no_at (format_datetime c) = true.
Proof.
  unfold format_datetime.
  rewrite !no_at_app, (digits_no_at _ format_date_digits),
    (digits_no_at _ format_time_digits). reflexivity.
Qed.





End TagFacts.




(** ** Validation *)

Section RunLaws.
Context {E W : Type}.


Lemma run_eta {A} (m : run E W A) : Run (warned m) (outcome m) = m.
Proof. destruct m; reflexivity. Qed.

End RunLaws.

Section ReportFacts.


(** In warn mode every issue is reported and validation goes on. *)
Lemma report_all_warning issues :
  report_all warning issues = Run issues (inr tt).
Proof.
  induction issues as [|i issues IH]; [reflexivity|].
  simpl. rewrite IH. reflexivity.
Qed.

(** In error mode the first issue is raised. *)
Lemma report_all_error issues :
  report_all error issues
  = match issues with
    | [] => ret tt
    | i :: _ => raise i
    end.
Proof. destruct issues; reflexivity. Qed.





Variable re_match : string -> string -> bool.


End ReportFacts.

Section PaddingFacts.

Lemma size_gt_1_distinct (l : list nat) :
  (1 < size (list_to_set l : gset nat))%nat
  <-> exists a b, a ∈ l /\ b ∈ l /\ a <> b.
Proof.
  split.
  - intros Hsize. destruct l as [|x l].
    + rewrite list_to_set_nil, size_empty in Hsize. lia.
    + destruct (decide (Forall (fun y => y = x) l)) as [Hall|Hsome].
      * rewrite (list_to_set_constant (x :: l) x), size_singleton in Hsize; [lia|discriminate|].
        intros y Hy. apply elem_of_cons in Hy as [->|Hy]; [reflexivity|].
        rewrite Forall_forall in Hall. apply Hall, Hy.
      * apply not_Forall_Exists in Hsome; [|intros y; apply _].
        apply Exists_exists in Hsome as [y [Hy Hne]].
        exists y, x. split; [right; exact Hy|]. split; [left | exact Hne].
  - intros (a & b & Ha & Hb & Hne).
    assert (Hsub : ({[a]} ∪ {[b]} : gset nat) ⊆ list_to_set l).
    { intros y. rewrite elem_of_union, !elem_of_singleton, elem_of_list_to_set.
      intros [->| ->]; assumption. }
    apply subseteq_size in Hsub.
    rewrite size_union, !size_singleton in Hsub; [lia|].
    apply disjoint_singleton_l. rewrite elem_of_singleton. exact Hne.
Qed.




Variable re_match : string -> string -> bool.

Lemma template_issues_kind prefix names cfg i :
  i ∈ template_issues re_match prefix names cfg ->
  exists name template,
    i = TemplateMismatch name template
    /\ name ∈ names
    /\ on cfg = true
    /\ template_for prefix cfg = Some template
    /\ re_match template name = false.
Proof.
  unfold template_issues. destruct (on cfg); [|intros H; inversion H].
  destruct (template_for prefix cfg) as [template|]; [|intros H; inversion H].
  rewrite list_elem_of_In, in_flat_map. intros [name [Hname Hi]].
  destruct (re_match template name) eqn:Hm; [inversion Hi|].
  destruct Hi as [<-|[]]. exists name, template.
  rewrite list_elem_of_In. auto.
Qed.



End PaddingFacts.


Section DuplicateFacts.

Variable re_match : string -> string -> bool.




End DuplicateFacts.




Section TemplateFacts.

Lemma contains_middle pre s post : Py.contains s (pre +:+ s +:+ post).
Proof. exists pre, post. reflexivity. Qed.

Lemma contains_suffix pre s : Py.contains s (pre +:+ s).
Proof. exists pre, "". rewrite append_nil_r. reflexivity. Qed.

(** The message of a template mismatch holds the name and the template
    as they are. *)
Lemma template_message name template :
  message (TemplateMismatch name template)
  = "The name: " +:+ name +:+ " does not match the template: " +:+ template
  /\ Py.contains name (message (TemplateMismatch name template))
  /\ Py.contains template (message (TemplateMismatch name template)).
Proof.
  split; [reflexivity|]. split.
  - apply contains_middle.
  - cbn [message]. rewrite <- !append_assoc. apply contains_suffix.
Qed.

Variable re_match : string -> string -> bool.

Lemma template_issues_off prefix names cfg :
  on cfg = false -> template_issues re_match prefix names cfg = [].
Proof. unfold template_issues. intros ->. reflexivity. Qed.

Lemma template_issues_elem prefix names cfg template name :
  on cfg = true -> template_for prefix cfg = Some template ->
  name ∈ names -> re_match template name = false ->
  TemplateMismatch name template ∈ template_issues re_match prefix names cfg.
Proof.
  intros Hon Htpl Hname Hmatch. unfold template_issues. rewrite Hon, Htpl.
  apply list_elem_of_In, in_flat_map. exists name.
  rewrite <- list_elem_of_In. split; [exact Hname|].
  rewrite Hmatch. left. reflexivity.
Qed.

End TemplateFacts.

(** C7. With the templates on and a template set for the prefix, a candidate
    that does not match it is a [TemplateMismatch]: a warning in warn mode,
    and in error mode the error raised is the [TemplateMismatch] of a
    candidate that does not match (of the candidate itself when it is the
    only one); its message holds the rejected name and the template as they
    are. With the templates off the stage reports nothing and validation
    does not depend on the stored templates or on the matcher. *)
Theorem C7_template_mismatch
    (re_match : string -> string -> bool)
    (prefix : string) (existing candidates : list string)
    (name_templates : NameTemplateConfig) (new : list ParsedName)
    (template name : string) :
  parse_all candidates prefix = ret new ->
  (on name_templates = true ->
   template_for prefix name_templates = Some template ->
   name ∈ candidates ->
   re_match template name = false ->
   TemplateMismatch name template
   ∈ warned (validate_level re_match prefix existing candidates
               warning name_templates)
   /\ (exists rejected,
         validate_level re_match prefix existing candidates error name_templates
         = raise (TemplateMismatch rejected template)
         /\ rejected ∈ candidates /\ re_match template rejected = false)
   /\ (candidates = [name] ->
       validate_level re_match prefix existing candidates error name_templates
       = raise (TemplateMismatch name template))
   /\ Py.contains name (message (TemplateMismatch name template))
   /\ Py.contains template (message (TemplateMismatch name template)))
  /\ (on name_templates = false ->
      template_issues re_match prefix candidates name_templates = []
      /\ forall mode re_match' sub_template ses_template,
           validate_level re_match prefix existing candidates mode name_templates
           = validate_level re_match' prefix existing candidates mode
               {| on := false; sub := sub_template; ses := ses_template |}).
Proof.
  intros Hnew. split.
  - intros Hon Htpl Hname Hmatch.
    pose proof (template_issues_elem re_match prefix candidates name_templates
                  template name Hon Htpl Hname Hmatch) as Hin.
    assert (Hlevel : forall mode,
      validate_level re_match prefix existing candidates mode name_templates
      = (report_all mode (template_issues re_match prefix candidates name_templates) ;;;
         existing_names <- parse_all existing prefix ;;
         report_all mode (padding_issues prefix (existing_names ++ new)) ;;;
         report_all mode (duplicate_issues prefix new existing_names))).
    { intros mode. unfold validate_level. rewrite Hnew, bind_ret_l. reflexivity. }
    split; [|split; [|split]].
    + rewrite Hlevel, warned_bind, report_all_warning. cbn [outcome warned].
      apply elem_of_app. left. exact Hin.
    + rewrite Hlevel, report_all_error.
      destruct (template_issues re_match prefix candidates name_templates)
        as [|i rest] eqn:Hissues; [inversion Hin|].
      assert (Hi : i ∈ template_issues re_match prefix candidates name_templates)
        by (rewrite Hissues; left).
      apply template_issues_kind in Hi as (rejected & t & -> & Hrej & _ & Ht & Hm).
      rewrite Htpl in Ht. injection Ht as <-.
      exists rejected. split; [reflexivity | auto].
    + intros ->. rewrite Hlevel, report_all_error.
      unfold template_issues. rewrite Hon, Htpl. cbn [flat_map].
      rewrite Hmatch. reflexivity.
    + apply template_message.
  - intros Hoff. split; [apply template_issues_off, Hoff|].
    intros mode re_match' sub_template ses_template.
    unfold validate_level.
    rewrite (template_issues_off re_match _ _ _ Hoff).
    rewrite (template_issues_off re_match' prefix candidates
               {| on := false; sub := sub_template; ses := ses_template |} eq_refl).
    reflexivity.
Qed.

Lemma C7_template_mismatch_witness :
  validate_level Regex.fullmatch "sub" [] ["sub-3_id-abC_random-helloworld"] error
    {| on := true;
       sub := Some "sub-\d_id-.?.?_random-.*";
       ses := Some "ses-\d\d_id-.?.?.?_random-.*" |}
  = raise (TemplateMismatch "sub-3_id-abC_random-helloworld"
             "sub-\d_id-.?.?_random-.*")
  /\ message (TemplateMismatch "sub-3_id-abC_random-helloworld"
                "sub-\d_id-.?.?_random-.*")
     = "The name: sub-3_id-abC_random-helloworld does not match the template: sub-\d_id-.?.?_random-.*"
  /\ validate_level Regex.fullmatch "sub" [] ["sub-3_id-abC_random-helloworld"] error
       {| on := false;
          sub := Some "sub-\d_id-.?.?_random-.*";
          ses := Some "ses-\d\d_id-.?.?.?_random-.*" |}
     = ret tt.
Proof.
  edestruct (C7_template_mismatch Regex.fullmatch "sub" []
               ["sub-3_id-abC_random-helloworld"]
               {| on := true;
                  sub := Some "sub-\d_id-.?.?_random-.*";
                  ses := Some "ses-\d\d_id-.?.?.?_random-.*" |}
               [ {| components := [ {| key := "sub"; value := "3" |};
                                     {| key := "id"; value := "abC" |};
                                     {| key := "random"; value := "helloworld" |} ];
                     raw := "sub-3_id-abC_random-helloworld" |} ]
               "sub-\d_id-.?.?_random-.*" "sub-3_id-abC_random-helloworld")
    as [Hon _]; [vm_compute; reflexivity|].
  edestruct (C7_template_mismatch Regex.fullmatch "sub" []
               ["sub-3_id-abC_random-helloworld"]
               {| on := false;
                  sub := Some "sub-\d_id-.?.?_random-.*";
                  ses := Some "ses-\d\d_id-.?.?.?_random-.*" |}
               [ {| components := [ {| key := "sub"; value := "3" |};
                                     {| key := "id"; value := "abC" |};
                                     {| key := "random"; value := "helloworld" |} ];
                     raw := "sub-3_id-abC_random-helloworld" |} ]
               "sub-\d_id-.?.?_random-.*" "sub-3_id-abC_random-helloworld")
    as [_ Hoff]; [vm_compute; reflexivity|].
  destruct (Hon eq_refl eq_refl ltac:(left) eq_refl) as (_ & _ & Hraise & _).
  destruct (Hoff eq_refl) as [_ Hsame].
  split; [exact (Hraise eq_refl)|]. split; [reflexivity|].
  rewrite (Hsame error Regex.fullmatch None None). vm_compute. reflexivity.
Defined.

Section ScanOrderFacts.



End ScanOrderFacts.




(** ** Scenarios of the integration tests *)

(** [test_get_next_sub_number]: three local subjects, nothing central. *)
Example test_next_sub_number :
  get_next_sub_or_ses_number (scan_of ["sub-001"; "sub-002"; "sub-003"] [])
    None "sub-*" false true 3 = ret "sub-004"
  /\ get_next_sub_or_ses_number (scan_of ["sub-001"; "sub-002"; "sub-003"] [])
       None "sub-*" false false 3 = ret "004".
Proof. split; vm_compute; reflexivity. Qed.

(** A skipped number is warned about and does not stop the suggestion. *)
Example next_number_with_gap :
  get_next_sub_or_ses_number (scan_of ["ses-01"] ["ses-03_date-20240101"])
    (Some "sub-001") "ses-*" false true 3
  = Run ["A subject number has been skipped, currently used subject numbers are: [1, 3]"]
        (inr "ses-04").
Proof. vm_compute. reflexivity. Qed.

(** Existing names of different digit widths stop the suggester. *)
Example next_number_inconsistent :
  outcome (get_next_sub_or_ses_number (scan_of ["sub-001"; "sub-02"] [])
             None "sub-*" false true 3)
  = inl (NeuroBlueprintError
           "The number of value digits for the sub level are not consistent. Cannot suggest a sub number.").
Proof. vm_compute. reflexivity. Qed.

(** [test_validate_names_against_project], local only: an exact match
    passes, a clash is raised with both names in its message, and in warn
    mode the padding warning comes first and the duplicates follow in the
    order of the candidates. *)
Example test_exact_match_passes :
  validate_names_against_project Regex.fullmatch test_project
    ["sub-1_id-@"] None true error get_name_templates_defaults = ret tt.
Proof. vm_compute. reflexivity. Qed.

Example test_clash_is_raised :
  validate_names_against_project Regex.fullmatch test_project
    ["sub-2_id-b"; "sub-1_id-11"; "sub-3_id-c"] None true error
    get_name_templates_defaults
  = raise (DuplicateId "sub" "sub-1_id-11" "sub-1_id-@")
  /\ message (DuplicateId "sub" "sub-1_id-11" "sub-1_id-@")
     = "A sub already exists with the same sub id as sub-1_id-11. The existing folder is sub-1_id-@.".
Proof. split; vm_compute; reflexivity. Qed.

Example test_warnings_in_order :
  validate_names_against_project Regex.fullmatch test_project
    ["sub-002"; "sub-1_id-11"; "sub-3_id-c"; "sub-4"] None true warning
    get_name_templates_defaults
  = Run [InconsistentPadding "sub";
         DuplicateId "sub" "sub-002" "sub-2_id-b";
         DuplicateId "sub" "sub-1_id-11" "sub-1_id-@"]
        (inr tt).
Proof. vm_compute. reflexivity. Qed.

(** The central [sub-4_date-2023] is seen only when central is scanned. *)
Example test_local_only :
  validate_names_against_project Regex.fullmatch test_project
    ["sub-4"; "sub-5"] None true error get_name_templates_defaults = ret tt
  /\ validate_names_against_project Regex.fullmatch test_project
       ["sub-4"; "sub-5"] None false error get_name_templates_defaults
     = raise (DuplicateId "sub" "sub-4" "sub-4_date-2023").
Proof. split; vm_compute; reflexivity. Qed.

(** Sessions are checked within each candidate subject. *)
Example test_sessions_per_subject :
  validate_names_against_project Regex.fullmatch test_project
    ["sub-1_id-@"; "sub-2_id-b"; "sub-4_date-2023"]
    (Some ["ses-001"; "ses-002"]) false error get_name_templates_defaults
  = ret tt
  /\ validate_names_against_project Regex.fullmatch test_project
       ["sub-1_id-@"; "sub-2_id-b"; "sub-4_date-2023"]
       (Some ["ses-002_id-11"; "ses-003_id-random"]) false warning
       get_name_templates_defaults
     = Run [DuplicateId "ses" "ses-002_id-11" "ses-002";
            DuplicateId "ses" "ses-003_id-random" "ses-003"]
           (inr tt).
Proof. split; vm_compute; reflexivity. Qed.

(** [test_persistent_settings_name_templates]: the templates of the test
    accept the good names and reject the bad ones. *)
Example test_templates :
  Regex.fullmatch "sub-\d_id-.?.?_random-.*" "sub-2_id-ab_random-helloworld" = true
  /\ Regex.fullmatch "sub-\d_id-.?.?_random-.*" "sub-3_id-abC_random-helloworld" = false
  /\ Regex.fullmatch "ses-\d\d_id-.?.?.?_random-.*" "ses-33_id-xyz_random-helloworld" = true
  /\ Regex.fullmatch "ses-\d\d_id-.?.?.?_random-.*" "ses-33_id-xyz_ranDUM-helloworld" = false.
Proof. repeat split; vm_compute; reflexivity. Qed.

(** * Further properties of the code *)

(** ** [getters.py] *)

Section MoreGetterFacts.

Lemma for_each_length {E W A B} (f : A -> run E W B) (l : list A) (bs : list B) :
  outcome (for_each f l) = inr bs -> length bs = length l.
Proof.
  revert bs. induction l as [|a l IH]; intros bs H.
  - injection H as <-. reflexivity.
  - cbn [for_each] in H. rewrite outcome_bind in H.
    destruct (outcome (f a)) as [e|b]; [discriminate H|].
    rewrite outcome_bind in H.
    destruct (outcome (for_each f l)) as [e|bs'] eqn:Hrest; [discriminate H|].
    injection H as <-. simpl. f_equal. apply IH. reflexivity.
Qed.

Lemma size_not_1_distinct (l : list nat) :
  l <> [] ->
  (size (list_to_set l : gset nat) <> 1%nat
   <-> exists a b, a ∈ l /\ b ∈ l /\ a <> b).
Proof.
  intros Hne. rewrite <- size_gt_1_distinct.
  destruct l as [|x l]; [congruence|].
  assert (Hpos : (0 < size (list_to_set (x :: l) : gset nat))%nat).
  { assert (Hsub : ({[x]} : gset nat) ⊆ list_to_set (x :: l)).
    { intros y. rewrite elem_of_singleton, elem_of_list_to_set. intros ->. left. }
    apply subseteq_size in Hsub. rewrite size_singleton in Hsub. lia. }
  lia.
Qed.

Lemma to_int_outcome values :
  match outcome (for_each utils.sub_or_ses_value_to_int values) with
  | inl e => exists v, e = NeuroBlueprintError (message (InvalidCharacter v))
  | inr _ => True
  end.
Proof.
  induction values as [|v values IH]; [exact I|].
  cbn [for_each]. rewrite outcome_bind.
  unfold utils.sub_or_ses_value_to_int at 1.
  destruct (negb (String.eqb v "") && Py.all_digits v).
  - cbn [outcome ret]. rewrite outcome_bind.
    destruct (outcome (for_each utils.sub_or_ses_value_to_int values)); [exact IH | exact I].
  - exists v. reflexivity.
Qed.

Lemma lookup_fold_insert {V} (g : string -> V) (l : list string) :
  forall (d0 : gmap string V) (k : string),
    fold_left (fun d s => <[ s := g s ]> d) l d0 !! k
    = if bool_decide (k ∈ l) then Some (g k) else d0 !! k.
Proof.
  induction l as [|x l IH]; intros d0 k; [reflexivity|].
  cbn [fold_left]. rewrite IH.
  destruct (bool_decide_reflect (k ∈ l)) as [Hin|Hnin].
  - rewrite bool_decide_eq_true_2 by (right; exact Hin). reflexivity.
  - destruct (decide (x = k)) as [->|Hne].
    + rewrite lookup_insert_eq, bool_decide_eq_true_2 by left. reflexivity.
    + rewrite lookup_insert_ne by exact Hne.
      rewrite bool_decide_eq_false_2; [reflexivity|].
      intros Hk. apply elem_of_cons in Hk as [->|Hk]; [congruence | contradiction].
Qed.

End MoreGetterFacts.

(** X1. When the values of the folder names have been read, the width check
    of [get_max_sub_or_ses_num_and_value_length] stops the suggestion with
    its own error exactly when two values differ in length; the names are
    then never converted to numbers. *)
Theorem X1_get_max_inconsistent_widths
    (all_folders : list string) (prefix : string) (default : option Z)
    (values : list string) :
  all_folders <> [] ->
  utils.get_values_from_bids_formatted_name all_folders prefix = ret values ->
  ((exists a b, a ∈ values /\ b ∈ values /\ Py.len a <> Py.len b)
   <-> outcome (get_max_sub_or_ses_num_and_value_length all_folders prefix default)
       = inl (NeuroBlueprintError (inconsistent_digits_message prefix)))
  /\ ((exists a b, a ∈ values /\ b ∈ values /\ Py.len a <> Py.len b) ->
      get_max_sub_or_ses_num_and_value_length all_folders prefix default
      = raise (NeuroBlueprintError (inconsistent_digits_message prefix))).
Proof.
  intros Hne Hvalues.
  assert (Hlen : length values = length all_folders).
  { unfold utils.get_values_from_bids_formatted_name in Hvalues.
    eapply for_each_length. rewrite Hvalues. reflexivity. }
  assert (Hvne : map Py.len values <> []).
  { destruct values; [|discriminate]. destruct all_folders; [congruence|discriminate Hlen]. }
  assert (Hdiff : (exists a b, a ∈ values /\ b ∈ values /\ Py.len a <> Py.len b)
                  <-> size (list_to_set (map Py.len values) : gset nat) <> 1%nat).
  { rewrite (size_not_1_distinct _ Hvne). split.
    - intros (a & b & Ha & Hb & Hab). exists (Py.len a), (Py.len b).
      split; [apply list_elem_of_fmap; eauto|].
      split; [apply list_elem_of_fmap; eauto | exact Hab].
    - intros (x & y & Hx & Hy & Hxy).
      apply list_elem_of_fmap in Hx as [a [-> Ha]].
      apply list_elem_of_fmap in Hy as [b [-> Hb]]. eauto. }
  unfold get_max_sub_or_ses_num_and_value_length.
  destruct all_folders as [|f0 rest] eqn:Hf; [congruence|]. rewrite <- Hf in *.
  replace (length all_folders =? 0)%nat with false by (rewrite Hf; reflexivity).
  rewrite Hvalues, bind_ret_l. fold (inconsistent_digits_message prefix).
  rewrite Hdiff.
  destruct (Nat.eqb_spec (size (list_to_set (map Py.len values) : gset nat)) 1)
    as [Hone|Hmany]; cbn [negb].
  - split; [|intros Hc; contradiction].
    split; [intros Hc; contradiction|].
    rewrite bind_ret_l. intros Hout. exfalso.
    destruct (map Py.len values) as [|d ds]; [congruence|].
    rewrite bind_ret_l, outcome_bind in Hout.
    pose proof (to_int_outcome values) as Hint.
    destruct (outcome (for_each utils.sub_or_ses_value_to_int values)) as [e|nums].
    + destruct Hint as [v ->]. discriminate Hout.
    + rewrite outcome_bind in Hout.
      match type of Hout with
      | context [outcome (if ?b then _ else _)] => destruct b
      end; cbn [outcome warn ret] in Hout;
        rewrite outcome_bind in Hout;
        destruct (Py.max (merge_sort Z.le nums)); discriminate Hout.
  - split; [|intros _; reflexivity].
    split; [intros _; reflexivity | intros _; exact Hmany].
Qed.

Lemma X1_get_max_inconsistent_widths_witness :
  get_max_sub_or_ses_num_and_value_length ["sub-001"; "sub-02_id-a"] "sub" (Some 3)
  = raise (NeuroBlueprintError
             "The number of value digits for the sub level are not consistent. Cannot suggest a sub number.").
Proof.
  refine (proj2 (X1_get_max_inconsistent_widths ["sub-001"; "sub-02_id-a"] "sub"
                   (Some 3) ["001"; "02"] _ _) _).
  - discriminate.
  - vm_compute. reflexivity.
  - exists "001", "02". split; [left|]. split; [right; left|]. vm_compute. discriminate.
Defined.

(** X2. [get_all_sub_and_ses_names] records sessions for exactly the
    subjects it lists: a subject that is listed has the sessions found under
    it, local before central, and nothing central when the scan is local
    only; a subject listed twice has one entry; any other name has none. *)
Theorem X2_all_sub_and_ses_names
    (search : option string -> string -> bool -> FolderNames)
    (local_only : bool) :
  let result := get_all_sub_and_ses_names search local_only in
  fst result = folders_looked_at local_only (search None "sub-*" local_only)
  /\ (forall s,
        s ∈ fst result ->
        snd result !! s
        = Some (folders_looked_at local_only (search (Some s) "ses-*" local_only)))
  /\ (forall s, s ∉ fst result -> snd result !! s = None)
  /\ dom (snd result) = list_to_set (fst result).
Proof.
  cbn zeta. unfold get_all_sub_and_ses_names. cbn [fst snd].
  fold (folders_looked_at local_only (search None "sub-*" local_only)).
  set (subs := folders_looked_at local_only (search None "sub-*" local_only)).
  set (g := fun s =>
              if local_only then local (search (Some s) "ses-*" local_only)
              else local (search (Some s) "ses-*" local_only)
                   ++ central (search (Some s) "ses-*" local_only)).
  assert (Hlook : forall k,
    fold_left (fun (d : gmap string (list string)) s => <[ s := g s ]> d) subs ∅ !! k
    = if bool_decide (k ∈ subs) then Some (g k) else None).
  { intros k. rewrite lookup_fold_insert, lookup_empty. reflexivity. }
  split; [reflexivity|]. split; [|split].
  - intros s Hs. rewrite Hlook, bool_decide_eq_true_2 by exact Hs. reflexivity.
  - intros s Hs. rewrite Hlook, bool_decide_eq_false_2 by exact Hs. reflexivity.
  - apply set_eq. intros k. rewrite elem_of_dom, elem_of_list_to_set, Hlook.
    destruct (bool_decide_reflect (k ∈ subs)) as [Hin|Hnin].
    + split; [auto | intros _; eexists; reflexivity].
    + split; [intros [? H]; discriminate H | contradiction].
Qed.

(** ** [manager/utils.py] *)

Section MorePrefixFacts.

Lemma append_inj_l p : forall a b, p +:+ a = p +:+ b -> a = b.
Proof.
  induction p as [|c p IH]; intros a b H; [exact H|].
  rewrite !append_cons in H. injection H as H. apply IH, H.
Qed.

(** Two names become the same name exactly when they are the same or one is
    the other with the prefix in front. *)
Lemma prefixed_collision p a b :
  prefixed p a = prefixed p b
  <-> a = b
      \/ (a = p +:+ b /\ Py.startswith p b = false)
      \/ (b = p +:+ a /\ Py.startswith p a = false).
Proof.
  unfold prefixed.
  destruct (Py.startswith p a) eqn:Ha, (Py.startswith p b) eqn:Hb.
  - split; [auto|]. intros [H|[[_ H]|[_ H]]]; [exact H | discriminate H | discriminate H].
  - split; [auto|]. intros [->|[[H _]|[_ H]]]; [congruence | exact H | discriminate H].
  - split; [auto|]. intros [->|[[_ H]|[H _]]]; [congruence | discriminate H | auto].
  - split.
    + intros H. left. apply (append_inj_l p), H.
    + intros [->|[[-> _]|[-> _]]]; [reflexivity | |];
        rewrite startswith_append in *; discriminate.
Qed.

Lemma not_NoDup_map {A B} `{EqDecision B} (f : A -> B) (l : list A) :
  NoDup l -> ~ NoDup (map f l) ->
  exists x y, x ∈ l /\ y ∈ l /\ x <> y /\ f x = f y.
Proof.
  induction 1 as [|x l Hx Hl IH]; intros Hdup.
  - exfalso. apply Hdup. constructor.
  - cbn [map] in Hdup. destruct (decide (f x ∈ map f l)) as [Hin|Hnin].
    + apply list_elem_of_fmap in Hin as [y [Hfy Hy]].
      exists x, y. split; [left|]. split; [right; exact Hy|].
      split; [intros ->; contradiction | exact Hfy].
    + destruct IH as (a & b & Ha & Hb & Hab & Hf).
      * intros Hnd. apply Hdup. constructor; assumption.
      * exists a, b. split; [right; exact Ha|]. split; [right; exact Hb|]. auto.
Qed.

Lemma NoDup_map_inj_on {A B} (f : A -> B) (l : list A) x y :
  NoDup (map f l) -> x ∈ l -> y ∈ l -> f x = f y -> x = y.
Proof.
  induction l as [|a l IH]; intros Hnd Hx Hy Hf; [inversion Hx|].
  cbn [map] in Hnd. apply NoDup_cons in Hnd as [Ha Hnd].
  apply elem_of_cons in Hx as [->|Hx]; apply elem_of_cons in Hy as [->|Hy].
  - reflexivity.
  - exfalso. apply Ha. rewrite Hf. apply list_elem_of_fmap. eauto.
  - exfalso. apply Ha. rewrite <- Hf. apply list_elem_of_fmap. eauto.
  - apply IH; assumption.
Qed.

Lemma process_names_str s prefix :
  manager.process_names (manager.NStr s) prefix = ret [prefixed prefix s].
Proof.
  unfold manager.process_names. rewrite bind_ret_l, ensure_prefixes_map.
  cbn [map length]. rewrite list_to_set_singleton, size_singleton.
  cbn [Nat.eqb negb]. rewrite bind_ret_l. reflexivity.
Qed.

Lemma strings_of_elements (l : list manager.element) :
  existsb (fun ele => negb (manager.is_str ele)) l = false ->
  exists names, l = map manager.EStr names.
Proof.
  induction l as [|e l IH]; intros H; [exists []; reflexivity|].
  cbn [existsb] in H. apply orb_false_iff in H as [He Hl].
  destruct (IH Hl) as [names ->]. destruct e as [s|]; [|discriminate He].
  exists (s :: names). reflexivity.
Qed.

Lemma not_str_elem (l : list manager.element) :
  existsb (fun ele => negb (manager.is_str ele)) l = true <-> manager.ENotStr ∈ l.
Proof.
  rewrite existsb_exists. split.
  - intros [e [He Hn]]. destruct e; [discriminate Hn|].
    apply list_elem_of_In, He.
  - intros H. exists manager.ENotStr. split; [apply list_elem_of_In, H | reflexivity].
Qed.

End MorePrefixFacts.

(** X3. Whatever is passed as [names], a list that [process_names] returns
    has no duplicates, holds only names that start with the prefix, and is
    returned unchanged when processed again; [process_names] raises its type
    error exactly when [names] is neither a string nor a list of strings,
    whether or not the list also has duplicates, and a single string is
    always accepted. *)
Theorem X3_process_names_result
    (names : manager.names_arg) (prefix : string) :
  (forall out,
     outcome (manager.process_names names prefix) = inr out ->
     NoDup out
     /\ Forall (fun name => Py.startswith prefix name = true) out
     /\ manager.process_names (manager.NList (map manager.EStr out)) prefix = ret out)
  /\ (outcome (manager.process_names names prefix)
      = inl (BaseException manager.type_error_message)
      <-> names = manager.NOther
          \/ exists l, names = manager.NList l /\ manager.ENotStr ∈ l)
  /\ (forall s, names = manager.NStr s ->
        manager.process_names names prefix = ret [prefixed prefix s]).
Proof.
  assert (Hlist : forall l out,
    outcome (manager.process_names (manager.NList (map manager.EStr l)) prefix) = inr out ->
    NoDup out
    /\ Forall (fun name => Py.startswith prefix name = true) out
    /\ manager.process_names (manager.NList (map manager.EStr out)) prefix = ret out).
  { intros l out. rewrite process_names_strings.
    destruct (bool_decide_reflect (NoDup (map (prefixed prefix) l))) as [Hnd|Hdup];
      [|discriminate].
    intros [= <-]. split; [exact Hnd|]. split.
    - apply Forall_forall. intros name Hin.
      apply list_elem_of_fmap in Hin as [n [-> _]]. apply prefixed_startswith.
    - rewrite process_names_strings, map_map.
      rewrite (map_ext _ (prefixed prefix) (prefixed_idem prefix)).
      rewrite bool_decide_eq_true_2 by exact Hnd. reflexivity. }
  split; [|split].
  - intros out Hout. destruct names as [s|l|].
    + apply (Hlist [s]). exact Hout.
    + destruct (existsb (fun ele => negb (manager.is_str ele)) l) eqn:He.
      * unfold manager.process_names in Hout. rewrite He in Hout. discriminate Hout.
      * destruct (strings_of_elements l He) as [ns ->]. apply (Hlist ns), Hout.
    + discriminate Hout.
  - destruct names as [s|l|].
    + rewrite process_names_str. split; [discriminate|].
      intros [H|[l [H _]]]; discriminate H.
    + destruct (existsb (fun ele => negb (manager.is_str ele)) l) eqn:He.
      * split.
        -- intros _. right. exists l. split; [reflexivity | apply not_str_elem, He].
        -- intros _. unfold manager.process_names. rewrite He. reflexivity.
      * destruct (strings_of_elements l He) as [ns ->].
        rewrite process_names_strings. split.
        -- destruct (bool_decide (NoDup (map (prefixed prefix) ns))).
           ++ discriminate.
           ++ intros H. exfalso. vm_compute in H. discriminate H.
        -- intros [H|[l' [[= <-] Hin]]]; [discriminate H|].
           apply not_str_elem in Hin. congruence.
    + split; [intros _; left; reflexivity | intros _; reflexivity].
  - intros s ->. apply process_names_str.
Qed.

(** X4. A list of distinct names is refused by [process_names] for
    duplicates exactly when it holds a name without the prefix together with
    the same name with the prefix in front. *)
Theorem X4_process_names_collision
    (names : list string) (prefix : string) :
  NoDup names ->
  (manager.process_names (manager.NList (map manager.EStr names)) prefix
   = raise (BaseException manager.duplicates_message)
   <-> exists bare, bare ∈ names /\ prefix +:+ bare ∈ names
                    /\ Py.startswith prefix bare = false).
Proof.
  intros Hnd. rewrite process_names_strings.
  destruct (bool_decide_reflect (NoDup (map (prefixed prefix) names))) as [Hok|Hdup].
  - split; [discriminate|].
    intros (bare & Hb & Hp & Hs). exfalso.
    assert (Heq : prefix +:+ bare = bare).
    { apply (NoDup_map_inj_on (prefixed prefix) names); [exact Hok | exact Hp | exact Hb|].
      apply prefixed_collision. right; left. auto. }
    apply (f_equal Py.len) in Heq. rewrite len_append in Heq.
    assert (Hlen : Py.len prefix = 0%nat) by lia.
    destruct prefix; [destruct bare; discriminate Hs | discriminate Hlen].
  - split; [|intros _; reflexivity]. intros _.
    destruct (not_NoDup_map (prefixed prefix) names Hnd Hdup)
      as (a & b & Ha & Hb & Hab & Hf).
    apply prefixed_collision in Hf as [Heq|[[Heq Hs]|[Heq Hs]]]; [contradiction| |].
    + exists b. subst a. auto.
    + exists a. subst b. auto.
Qed.

Lemma X4_process_names_collision_witness :
  manager.process_names
    (manager.NList (map manager.EStr ["001"; "sub-002"; "sub-001"])) "sub-"
  = raise (BaseException manager.duplicates_message).
Proof.
  apply (X4_process_names_collision ["001"; "sub-002"; "sub-001"] "sub-").
  - repeat constructor; rewrite ?elem_of_cons, ?elem_of_nil;
      intros H; repeat destruct H as [H|H]; try discriminate H; exact H.
  - exists "001". split; [left|]. split; [right; right; left | reflexivity].
Defined.

(** ** [tui/custom_widgets.py]: names typed into the inputs *)

Section SplitFacts.

Variable c : ascii.
Let sep : string := String c EmptyString.

Lemma prefix_nil s : String.prefix "" s = true.
Proof. destruct s; reflexivity. Qed.

Lemma free_of_cons a s :
  free_of c (String a s) = negb (Ascii.eqb a c) && free_of c s.
Proof. reflexivity. Qed.

Lemma free_of_app s t : free_of c (s +:+ t) = free_of c s && free_of c t.
Proof.
  induction s as [|a s IH]; [reflexivity|].
  rewrite append_cons, !free_of_cons, IH, andb_assoc. reflexivity.
Qed.

Lemma replace_aux_char fuel : forall s,
  (Py.len s <= fuel)%nat ->
  Py.replace_aux fuel sep "" s = without_char c s.
Proof.
  induction fuel as [|f IH]; intros s Hlen.
  - destruct s; [reflexivity | unfold Py.len in Hlen; simpl in Hlen; lia].
  - destruct s as [|a s]; [reflexivity|].
    cbn [Py.replace_aux without_char]. subst sep. rewrite prefix_cons, prefix_nil.
    assert (Hs : (Py.len s <= f)%nat) by (unfold Py.len in *; simpl in Hlen; lia).
    destruct (ascii_dec c a) as [<-|Hne].
    + rewrite Ascii.eqb_refl. cbn [Py.len String.length Py.drop].
      rewrite append_nil_l. apply IH, Hs.
    + destruct (Ascii.eqb_spec a c) as [->|_]; [congruence|].
      rewrite IH by exact Hs. reflexivity.
Qed.

(** Replacing a character by nothing removes it. *)
Lemma replace_char s : Py.replace sep "" s = without_char c s.
Proof.
  change (Py.replace_aux (S (Py.len s)) sep "" s = without_char c s).
  apply replace_aux_char. lia.
Qed.

Lemma split_nonempty s : Py.split c s <> [].
Proof.
  destruct s as [|a s]; [discriminate|].
  cbn [Py.split]. destruct (Ascii.eqb a c); [discriminate|].
  destruct (Py.split c s); discriminate.
Qed.

(** Joining what was split gives the string back. *)
Lemma join_split s : Py.join sep (Py.split c s) = s.
Proof.
  induction s as [|a s IH]; [reflexivity|].
  cbn [Py.split]. pose proof (split_nonempty s) as Hne.
  destruct (Py.split c s) as [|w ws]; [congruence|].
  destruct (Ascii.eqb_spec a c) as [->|_].
  - change (Py.join sep ("" :: w :: ws)) with ("" +:+ sep +:+ Py.join sep (w :: ws)).
    rewrite IH. reflexivity.
  - destruct ws as [|w' ws].
    + cbn [Py.join] in *. rewrite IH. reflexivity.
    + change (Py.join sep (String a w :: w' :: ws))
        with (String a (w +:+ sep +:+ Py.join sep (w' :: ws))).
      change (Py.join sep (w :: w' :: ws))
        with (w +:+ sep +:+ Py.join sep (w' :: ws)) in IH.
      rewrite IH. reflexivity.
Qed.

Lemma length_split s : length (Py.split c s) = S (count_char c s).
Proof.
  induction s as [|a s IH]; [reflexivity|].
  cbn [Py.split count_char]. pose proof (split_nonempty s) as Hne.
  destruct (Ascii.eqb a c).
  - cbn [length]. rewrite IH. reflexivity.
  - destruct (Py.split c s) as [|w ws]; [congruence|]. exact IH.
Qed.

(** No part of a split holds the separator, nor any character the string
    did not hold. *)
Lemma split_free (d : ascii) s :
  (d = c \/ free_of d s = true) ->
  Forall (fun part => free_of d part = true) (Py.split c s).
Proof.
  induction s as [|a s IH]; intros Hd; [repeat constructor|].
  cbn [Py.split]. pose proof (split_nonempty s) as Hne.
  assert (Hrest : Forall (fun part => free_of d part = true) (Py.split c s)).
  { apply IH. destruct Hd as [->|Hd]; [left; reflexivity|].
    right. unfold free_of in *. simpl in Hd. apply andb_prop in Hd. tauto. }
  destruct (Ascii.eqb_spec a c) as [->|Hne'].
  - constructor; [reflexivity | exact Hrest].
  - destruct (Py.split c s) as [|w ws]; [congruence|].
    inversion Hrest as [|? ? Hw Hws]; subst. constructor; [|exact Hws].
    unfold free_of in *. simpl. rewrite Hw, andb_true_r.
    destruct Hd as [->|Hd].
    + destruct (Ascii.eqb_spec a c); [contradiction|reflexivity].
    + simpl in Hd. apply andb_prop in Hd. tauto.
Qed.

Lemma split_free_app w : forall t,
  free_of c w = true ->
  Py.split c (w +:+ t)
  = match Py.split c t with
    | x :: xs => (w +:+ x) :: xs
    | [] => [w]
    end.
Proof.
  induction w as [|a w IH]; intros t Hw.
  - rewrite append_nil_l. pose proof (split_nonempty t).
    destruct (Py.split c t); [congruence|reflexivity].
  - rewrite free_of_cons in Hw. apply andb_prop in Hw as [Ha Hw].
    rewrite append_cons. cbn [Py.split].
    destruct (Ascii.eqb a c); [discriminate Ha|].
    rewrite IH by exact Hw.
    destruct (Py.split c t); reflexivity.
Qed.

(** Splitting a join of parts without the separator gives the parts back. *)
Lemma split_join names :
  names <> [] -> Forall (fun n => free_of c n = true) names ->
  Py.split c (Py.join sep names) = names.
Proof.
  intros Hne Hfree. induction Hfree as [|n names Hn Hrest IH]; [congruence|].
  destruct names as [|m names].
  - cbn [Py.join]. rewrite <- (append_nil_r n) at 1.
    rewrite split_free_app by exact Hn. cbn. rewrite append_nil_r. reflexivity.
  - change (Py.join sep (n :: m :: names))
      with (n +:+ String c (Py.join sep (m :: names))).
    rewrite split_free_app by exact Hn.
    cbn [Py.split]. rewrite Ascii.eqb_refl, IH by discriminate.
    rewrite append_nil_r. reflexivity.
Qed.

End SplitFacts.

Section NamesListFacts.

Lemma without_free c s : free_of c s = true -> without_char c s = s.
Proof.
  induction s as [|a s IH]; intros H; [reflexivity|].
  rewrite free_of_cons in H. apply andb_prop in H as [Ha Hs].
  cbn [without_char]. destruct (Ascii.eqb a c); [discriminate Ha|].
  rewrite IH by exact Hs. reflexivity.
Qed.

Lemma without_app c s t :
  without_char c (s +:+ t) = without_char c s +:+ without_char c t.
Proof.
  induction s as [|a s IH]; [reflexivity|].
  rewrite append_cons. cbn [without_char]. destruct (Ascii.eqb a c); [exact IH|].
  rewrite append_cons, IH. reflexivity.
Qed.

Lemma without_is_free c s : free_of c (without_char c s) = true.
Proof.
  induction s as [|a s IH]; [reflexivity|].
  cbn [without_char]. destruct (Ascii.eqb a c) eqn:Ha; [exact IH|].
  rewrite free_of_cons, Ha, IH. reflexivity.
Qed.

Lemma count_without c d s :
  c <> d -> count_char c (without_char d s) = count_char c s.
Proof.
  intros Hne. induction s as [|a s IH]; [reflexivity|].
  cbn [without_char count_char].
  destruct (Ascii.eqb_spec a d) as [->|Had].
  - destruct (Ascii.eqb_spec d c) as [->|_]; [congruence | exact IH].
  - cbn [count_char]. rewrite IH. reflexivity.
Qed.

Lemma without_space_join names :
  Forall (fun n => free_of " " n = true) names ->
  without_char " " (Py.join ", " names) = Py.join "," names.
Proof.
  induction 1 as [|n names Hn Hrest IH]; [reflexivity|].
  destruct names as [|m names]; [apply without_free, Hn|].
  change (Py.join ", " (n :: m :: names))
    with (n +:+ ", " +:+ Py.join ", " (m :: names)).
  change (Py.join "," (n :: m :: names))
    with (n +:+ "," +:+ Py.join "," (m :: names)).
  rewrite !without_app, IH, (without_free _ _ Hn). reflexivity.
Qed.

Lemma join_nonempty sep n names : n <> "" -> Py.join sep (n :: names) <> "".
Proof.
  intros Hn. destruct names as [|m names]; [exact Hn|].
  change (Py.join sep (n :: m :: names)) with (n +:+ sep +:+ Py.join sep (m :: names)).
  destruct n; [congruence | discriminate].
Qed.

Lemma join_snoc sep names x :
  names <> [] ->
  Py.join sep (names ++ [x]) = Py.join sep names +:+ sep +:+ x.
Proof.
  induction names as [|n names IH]; intros Hne; [congruence|].
  destruct names as [|m names]; [reflexivity|].
  change (Py.join sep ((n :: m :: names) ++ [x]))
    with (n +:+ sep +:+ Py.join sep ((m :: names) ++ [x])).
  rewrite IH by discriminate.
  change (Py.join sep (n :: m :: names)) with (n +:+ sep +:+ Py.join sep (m :: names)).
  rewrite !append_assoc. reflexivity.
Qed.

End NamesListFacts.

(** X5. [as_names_list] never returns an empty list: it returns one name
    more than the input has commas (one empty name for an empty input), no
    name holds a space or a comma, and the names joined by commas are the
    input without its spaces. *)
Theorem X5_as_names_list (value : string) :
  length (tui.as_names_list value) = S (count_char "," value)
  /\ Forall (fun name => free_of " " name = true /\ free_of "," name = true)
            (tui.as_names_list value)
  /\ Py.join "," (tui.as_names_list value) = without_char " " value.
Proof.
  unfold tui.as_names_list. rewrite replace_char.
  split; [|split].
  - rewrite length_split. f_equal. apply count_without. discriminate.
  - pose proof (split_free "," " " (without_char " " value)
                  (or_intror (without_is_free " " value))) as Hspace.
    pose proof (split_free "," "," (without_char " " value) (or_introl eq_refl)) as Hcomma.
    rewrite Forall_forall in *. auto.
  - apply join_split.
Qed.

(** X6. Appending names to empty inputs and reading the inputs back gives
    the names: the subject input holds the names that start with [sub-], the
    session input those that start with [ses-], each joined by a comma and a
    space, and names with neither prefix are dropped; a non-empty input
    whose names hold no space or comma reads back as exactly its names. *)
Theorem X6_append_then_read (names : list string) :
  let w := fold_left tui.append_sub_or_ses_name_to_input names
             {| tui.sub_input := ""; tui.ses_input := "" |} in
  let subs := filter (fun n => Py.startswith "sub-" n = true) names in
  let sess := filter (fun n => Py.startswith "ses-" n = true) names in
  tui.sub_input w = Py.join ", " subs
  /\ tui.ses_input w = Py.join ", " sess
  /\ (subs <> [] ->
      Forall (fun n => free_of " " n = true /\ free_of "," n = true) subs ->
      tui.as_names_list (tui.sub_input w) = subs)
  /\ (sess <> [] ->
      Forall (fun n => free_of " " n = true /\ free_of "," n = true) sess ->
      tui.as_names_list (tui.ses_input w) = sess).
Proof.
  cbn zeta.
  assert (Hread : forall l : list string,
    l <> [] ->
    Forall (fun n => free_of " " n = true /\ free_of "," n = true) l ->
    tui.as_names_list (Py.join ", " l) = l).
  { intros l Hne Hfree. unfold tui.as_names_list.
    rewrite replace_char, without_space_join.
    - apply split_join; [exact Hne|].
      eapply Forall_impl; [exact Hfree|]. intros n [_ Hn]. exact Hn.
    - eapply Forall_impl; [exact Hfree|]. intros n [Hn _]. exact Hn. }
  assert (Hfields :
    tui.sub_input (fold_left tui.append_sub_or_ses_name_to_input names
                     {| tui.sub_input := ""; tui.ses_input := "" |})
    = Py.join ", " (filter (fun n => Py.startswith "sub-" n = true) names)
    /\ tui.ses_input (fold_left tui.append_sub_or_ses_name_to_input names
                        {| tui.sub_input := ""; tui.ses_input := "" |})
       = Py.join ", " (filter (fun n => Py.startswith "ses-" n = true) names)).
  { induction names as [|x names IH] using rev_ind; [split; reflexivity|].
    rewrite fold_left_app, !filter_app. cbn [fold_left].
    destruct IH as [IHsub IHses].
    set (w := fold_left tui.append_sub_or_ses_name_to_input names
                {| tui.sub_input := ""; tui.ses_input := "" |}) in *.
    assert (Hempty : forall (p : string) (l : list string),
      p <> "" ->
      String.eqb (Py.join ", " (filter (fun n => Py.startswith p n = true) l)) ""
      = match filter (fun n => Py.startswith p n = true) l with
        | [] => true
        | _ => false
        end).
    { intros p l Hp.
      destruct (filter (fun n => Py.startswith p n = true) l) as [|n rest] eqn:Hf;
        [reflexivity|].
      apply String.eqb_neq, join_nonempty.
      assert (Hin : n ∈ filter (fun n => Py.startswith p n = true) l)
        by (rewrite Hf; left).
      apply list_elem_of_filter in Hin as [Hn _].
      intros ->. destruct p; [congruence | discriminate Hn]. }
    unfold tui.append_sub_or_ses_name_to_input.
    rewrite !filter_cons, !filter_nil.
    destruct (decide (Py.startswith "sub-" x = true)) as [Hsub|Hsub];
      [rewrite Hsub | apply not_true_is_false in Hsub; rewrite Hsub];
      (destruct (decide (Py.startswith "ses-" x = true)) as [Hses|Hses];
       [rewrite Hses | apply not_true_is_false in Hses; rewrite Hses]).
    - exfalso. destruct x as [|a x]; [discriminate Hsub|].
      unfold Py.startswith in *. rewrite prefix_cons in Hsub, Hses.
      destruct (ascii_dec "s" a) as [<-|]; [|discriminate Hsub].
      destruct x as [|b x]; [discriminate Hsub|]. rewrite prefix_cons in Hsub, Hses.
      destruct (ascii_dec "u" b) as [<-|]; [|discriminate Hsub].
      discriminate Hses.
    - rewrite app_nil_r, IHsub, Hempty by discriminate.
      destruct (filter (fun n => Py.startswith "sub-" n = true) names) as [|n rest] eqn:Hf.
      + cbn [tui.sub_input tui.ses_input]. split; [reflexivity | exact IHses].
      + cbn [tui.sub_input tui.ses_input].
        rewrite join_snoc by discriminate. split; [reflexivity | exact IHses].
    - rewrite app_nil_r, IHses, Hempty by discriminate.
      destruct (filter (fun n => Py.startswith "ses-" n = true) names) as [|n rest] eqn:Hf.
      + cbn [tui.sub_input tui.ses_input]. split; [exact IHsub | reflexivity].
      + cbn [tui.sub_input tui.ses_input].
        rewrite join_snoc by discriminate. split; [exact IHsub | reflexivity].
    - rewrite !app_nil_r. split; assumption. }
  destruct Hfields as [Hsub Hses]. rewrite Hsub, Hses.
  split; [reflexivity|]. split; [reflexivity|].
  split; apply Hread.
Qed.

(** An empty input reads as one empty name, which prefixing turns into the
    bare prefix. *)
Example empty_input_is_one_name :
  tui.as_names_list "" = [""]
  /\ manager.process_names
       (manager.NList (map manager.EStr (tui.as_names_list ""))) "sub-"
     = ret ["sub-"].
Proof. split; vm_compute; reflexivity. Qed.

Example append_and_read_example :
  tui.as_names_list
    (tui.sub_input
       (fold_left tui.append_sub_or_ses_name_to_input
          ["sub-001"; "ses-01"; "notes"; "sub-002"]
          {| tui.sub_input := ""; tui.ses_input := "" |}))
  = ["sub-001"; "sub-002"].
Proof. vm_compute. reflexivity. Qed.

(** ** [canonical_configs.py]: the checks on a config *)

Section GuardFacts.
Context {E W A : Type}.
Variables (P : A -> bool) (e : A -> E).

Let guard (x : A) : run E W unit := if P x then raise (e x) else ret tt.

Lemma guard_loop_pass (l : list A) :
  (forall x, x ∈ l -> P x = false) ->
  for_each guard l = ret (map (fun _ => tt) l).
Proof.
  intros H. apply for_each_ret. intros x Hx. subst guard. cbn beta.
  rewrite (H x Hx). reflexivity.
Qed.

Lemma guard_loop_fail (l1 l2 : list A) (x : A) :
  (forall y, y ∈ l1 -> P y = false) -> P x = true ->
  for_each guard (l1 ++ x :: l2) = raise (e x).
Proof.
  intros H Hx. induction l1 as [|y l1 IH]; cbn [app for_each].
  - subst guard. cbn beta. rewrite Hx. reflexivity.
  - assert (Hy : guard y = ret tt)
      by (subst guard; cbn beta; rewrite (H y) by left; reflexivity).
    rewrite Hy, bind_ret_l, IH by (intros z Hz; apply H; right; exact Hz).
    reflexivity.
Qed.

Lemma first_true (l : list A) :
  (exists x, x ∈ l /\ P x = true) ->
  exists l1 x l2, l = l1 ++ x :: l2
                  /\ (forall y, y ∈ l1 -> P y = false) /\ P x = true.
Proof.
  induction l as [|y l IH]; intros [x [Hx Hp]]; [inversion Hx|].
  destruct (P y) eqn:Hy.
  - exists [], y, l. split; [reflexivity|]. split; [intros z Hz; inversion Hz | exact Hy].
  - destruct IH as (l1 & x' & l2 & -> & Hl1 & Hx').
    + apply elem_of_cons in Hx as [->|Hx]; [congruence | eauto].
    + exists (y :: l1), x', l2. split; [reflexivity|]. split; [|exact Hx'].
      intros z Hz. apply elem_of_cons in Hz as [->|Hz]; [exact Hy | apply Hl1, Hz].
Qed.

Lemma guard_loop_outcome (l : list A) :
  (exists bs, outcome (for_each guard l) = inr bs /\ forall x, x ∈ l -> P x = false)
  \/ (exists x, outcome (for_each guard l) = inl (e x) /\ x ∈ l /\ P x = true).
Proof.
  destruct (existsb P l) eqn:Hex.
  - right. apply existsb_exists in Hex as [x [Hx Hp]].
    destruct (first_true l) as (l1 & x' & l2 & -> & Hl1 & Hx').
    { exists x. split; [apply list_elem_of_In, Hx | exact Hp]. }
    exists x'. rewrite guard_loop_fail by assumption.
    split; [reflexivity|]. split; [|exact Hx'].
    apply elem_of_app. right. left.
  - left. assert (Hall : forall x, x ∈ l -> P x = false).
    { intros x Hx. destruct (P x) eqn:Hp; [|reflexivity].
      assert (existsb P l = true); [|congruence].
      apply existsb_exists. exists x. split; [apply list_elem_of_In, Hx | exact Hp]. }
    rewrite guard_loop_pass by exact Hall. eauto.
Qed.

End GuardFacts.

Section RunInversion.
Context {E W : Type}.

Lemma bind_inr {A B} (m : run E W A) (k : A -> run E W B) (b : B) :
  outcome (bind m k) = inr b
  <-> exists a, outcome m = inr a /\ outcome (k a) = inr b.
Proof.
  rewrite outcome_bind. destruct (outcome m) as [e|a].
  - split; [discriminate | intros [? [H _]]; discriminate H].
  - split; [eauto | intros [? [[= <-] H]]; exact H].
Qed.

Lemma bind_inl {A B} (m : run E W A) (k : A -> run E W B) (e : E) :
  outcome (bind m k) = inl e
  <-> outcome m = inl e \/ exists a, outcome m = inr a /\ outcome (k a) = inl e.
Proof.
  rewrite outcome_bind. destruct (outcome m) as [e'|a].
  - split; [intros [= ->]; auto|].
    intros [[= ->]|[? [H _]]]; [reflexivity | discriminate H].
  - split; [eauto | intros [H|[? [[= <-] H]]]; [discriminate H | exact H]].
Qed.

Lemma guard_inr (b : bool) (e : E) :
  outcome (if b then raise e else ret tt : run E W unit) = inr tt <-> b = false.
Proof. destruct b; split; (reflexivity || discriminate). Qed.

End RunInversion.

Section ConfigFacts.

Import configs.

Variable is_dir : Path -> bool.
Variable make_folders_ok : pyval -> bool.

Lemma getitem_inr {V} (d : list (string * V)) key v :
  outcome (getitem d key) = inr v <-> lookup key d = Some v.
Proof.
  unfold getitem. destruct (lookup key d) as [v'|].
  - split; intros [= ->]; reflexivity.
  - split; discriminate.
Qed.

Lemma getitem_some {V} (d : list (string * V)) key v :
  lookup key d = Some v -> getitem d key = ret v.
Proof. unfold getitem. intros ->. reflexivity. Qed.

Lemma lookup_keys {V} (d : list (string * V)) key :
  key ∈ keys d <-> exists v, lookup key d = Some v.
Proof.
  induction d as [|[k v] d IH]; cbn [keys map fst lookup].
  - split; [intros H; inversion H | intros [? H]; discriminate H].
  - rewrite elem_of_cons. destruct (String.eqb_spec k key) as [->|Hne].
    + split; [eauto | auto].
    + fold (keys d). rewrite IH. split; [intros [->|H]; [congruence | exact H] | auto].
Qed.

Lemma startswith_cons a p b s :
  Py.startswith (String a p) (String b s)
  = if ascii_dec a b then Py.startswith p s else false.
Proof. reflexivity. Qed.

Lemma dot_then_dotdot s :
  Py.startswith "." s = false -> Py.startswith "../" s = false.
Proof.
  destruct s as [|b s]; [reflexivity|]. rewrite !startswith_cons.
  destruct (ascii_dec "." b); [|reflexivity].
  unfold Py.startswith. rewrite prefix_nil. discriminate.
Qed.

Lemma tilde_first b s :
  Py.startswith "~" (String b s) = Ascii.eqb b "~".
Proof.
  rewrite startswith_cons. unfold Py.startswith. rewrite prefix_nil.
  destruct (ascii_dec "~" b) as [<-|Hne]; [reflexivity|].
  destruct (Ascii.eqb_spec b "~"); congruence.
Qed.

(** A path gets through the loop body exactly when it is a path object
    whose posix form does not start with [~] or a dot and whose stem is the
    project name. *)
Lemma check_path_inr (c : Configs) (path_type : string) :
  outcome (check_path c path_type) = inr tt
  <-> exists p, lookup path_type (data c) = Some (VPath p)
                /\ path_accepted (project_name c) p.
Proof.
  unfold check_path, path_accepted, getitem.
  destruct (lookup path_type (data c)) as [v|];
    [|split; [discriminate | intros [? [H _]]; discriminate H]].
  rewrite bind_ret_l.
  destruct v as [s|p|b| |];
    try (split; [discriminate | intros [? [H _]]; discriminate H]).
  cbn [path_of]. rewrite bind_ret_l.
  destruct (as_posix p) as [|b s] eqn:Hposix.
  { split; [discriminate|]. intros [p' [[= <-] [Hne _]]]. congruence. }
  pose proof (tilde_first b s) as Htilde.
  destruct (Ascii.eqb b "~") eqn:Hb.
  { split; [discriminate|]. intros [p' [[= <-] (_ & Ht & _)]]. congruence. }
  rewrite bind_ret_l. cbn [for_each].
  destruct (Py.startswith "." (String b s)) eqn:Hdot.
  { split; [discriminate|]. intros [p' [[= <-] (_ & _ & Hd & _)]]. congruence. }
  rewrite bind_ret_l, (dot_then_dotdot _ Hdot), !bind_ret_l.
  destruct (String.eqb_spec (stem p) (project_name c)) as [Hstem|Hstem]; cbn [negb].
  - split; [|reflexivity]. intros _. exists p. repeat split; congruence.
  - split; [discriminate|]. intros [p' [[= <-] (_ & _ & _ & Hs)]]. congruence.
Qed.

(** The folder above the project: the local one must exist, the central one
    only for a connection by the local file system. *)
Lemma check_folder_inr (c : Configs) :
  outcome (check_folder_above_project_name_exists is_dir c) = inr tt
  <-> exists lp cm,
        lookup "local_path" (data c) = Some (VPath lp)
        /\ is_dir (parent lp) = true
        /\ lookup "connection_method" (data c) = Some cm
        /\ (in_literal cm ["local_filesystem"] = true ->
            exists cp, lookup "central_path" (data c) = Some (VPath cp)
                       /\ is_dir (parent cp) = true).
Proof.
  unfold check_folder_above_project_name_exists, getitem.
  destruct (lookup "local_path" (data c)) as [v|];
    [|split; [discriminate | intros (? & ? & H & _); discriminate H]].
  rewrite bind_ret_l.
  destruct v as [s|lp|b| |];
    try (split; [discriminate | intros (? & ? & H & _); discriminate H]).
  cbn [path_of]. rewrite bind_ret_l.
  destruct (lookup "connection_method" (data c)) as [cm|].
  2:{ split; [|intros (? & ? & _ & _ & H & _); discriminate H].
      destruct (is_dir (parent lp)); discriminate. }
  destruct (is_dir (parent lp)) eqn:Hlocal; cbn [negb].
  2:{ split; [discriminate|]. intros (? & ? & [= <-] & H & _). congruence. }
  rewrite !bind_ret_l.
  destruct (in_literal cm ["local_filesystem"]) eqn:Hfs.
  - destruct (lookup "central_path" (data c)) as [v|].
    2:{ split; [discriminate|].
        intros (? & ? & _ & _ & [= <-] & H). destruct (H Hfs) as [? [H' _]]. discriminate H'. }
    rewrite bind_ret_l.
    destruct v as [s|cp|b| |];
      try (split; [discriminate|];
           intros (? & ? & _ & _ & [= <-] & H); destruct (H Hfs) as [? [H' _]];
           discriminate H').
    cbn [path_of]. rewrite bind_ret_l.
    destruct (is_dir (parent cp)) eqn:Hcentral; cbn [negb].
    + split; [|reflexivity]. intros _. exists lp, cm. repeat split; eauto.
    + split; [discriminate|].
      intros (? & ? & _ & _ & [= <-] & H). destruct (H Hfs) as [? [[= <-] H']]. congruence.
  - split; [|reflexivity]. intros _. exists lp, cm.
    split; [reflexivity|]. split; [exact Hlocal|]. split; [reflexivity|].
    rewrite Hfs. discriminate.
Qed.

End ConfigFacts.

Section ConfigTypes.

Import configs.

Lemma types_inr (n : string) (v1 v2 v3 v4 v5 v6 v7 v8 : pyval) :
  outcome (check_config_types
             {| project_name := n;
                data := canonical_layout v1 v2 v3 v4 v5 v6 v7 v8 |}) = inr tt
  <-> existsb (isinstance v1) [TStr; TPath] = true
      /\ existsb (isinstance v2) [TStr; TPath] = true
      /\ in_literal v3 ["ssh"; "local_filesystem"] = true
      /\ existsb (isinstance v4) [TStr; TNoneType] = true
      /\ existsb (isinstance v5) [TStr; TNoneType] = true
      /\ isinstance v6 TBool = true
      /\ in_literal v7 ["v"; "vv"] = true
      /\ isinstance v8 TBool = true.
Proof.
  unfold check_config_types, canonical_layout.
  cbn -[isinstance in_literal existsb].
  destruct (existsb (isinstance v1) [TStr; TPath]);
    [|split; [discriminate | intros (H & _); discriminate H]].
  destruct (existsb (isinstance v2) [TStr; TPath]);
    [|split; [discriminate | intros (_ & H & _); discriminate H]].
  destruct (in_literal v3 ["ssh"; "local_filesystem"]);
    [|split; [discriminate | intros (_ & _ & H & _); discriminate H]].
  destruct (existsb (isinstance v4) [TStr; TNoneType]);
    [|split; [discriminate | intros (_ & _ & _ & H & _); discriminate H]].
  destruct (existsb (isinstance v5) [TStr; TNoneType]);
    [|split; [discriminate | intros (_ & _ & _ & _ & H & _); discriminate H]].
  destruct (isinstance v6 TBool);
    [|split; [discriminate | intros (_ & _ & _ & _ & _ & H & _); discriminate H]].
  destruct (in_literal v7 ["v"; "vv"]);
    [|split; [discriminate | intros (_ & _ & _ & _ & _ & _ & H & _); discriminate H]].
  destruct (isinstance v8 TBool);
    [|split; [discriminate | intros (_ & _ & _ & _ & _ & _ & _ & H); discriminate H]].
  split; [intros _; repeat split | reflexivity].
Qed.

Lemma in_literal_iff v options :
  in_literal v options = true <-> exists s, v = VStr s /\ s ∈ options.
Proof.
  destruct v as [s| | | |]; cbn [in_literal];
    try (split; [discriminate | intros [? [H _]]; discriminate H]).
  rewrite existsb_exists. split.
  - intros [o [Ho Heq]]. apply String.eqb_eq in Heq as ->.
    exists o. split; [reflexivity | apply list_elem_of_In, Ho].
  - intros [o [[= ->] Ho]]. exists o.
    split; [apply list_elem_of_In, Ho | apply String.eqb_refl].
Qed.

Lemma optional_str_iff v :
  existsb (isinstance v) [TStr; TNoneType] = true <-> optional_str v.
Proof.
  unfold optional_str. destruct v; cbn; split; try discriminate; eauto;
    intros [H|[? H]]; discriminate H.
Qed.

Lemma canonical_keys_layout (d : list (string * pyval)) :
  keys d = keys get_canonical_configs ->
  exists v1 v2 v3 v4 v5 v6 v7 v8, d = canonical_layout v1 v2 v3 v4 v5 v6 v7 v8.
Proof.
  intros H. unfold keys in H. cbn [map fst get_canonical_configs] in H.
  repeat (destruct d as [|[? ?] d]; [discriminate H|];
          cbn [map fst] in H; injection H as -> H).
  destruct d; [|discriminate H]. unfold canonical_layout. eauto 10.
Qed.

End ConfigTypes.

Section ConfigAccepted.

Import configs.

Variable is_dir : Path -> bool.
Variable make_folders_ok : pyval -> bool.

Lemma present_keys_pass (d : list (string * pyval)) :
  keys d = keys get_canonical_configs ->
  (exists bs,
     for_each
       (fun key =>
          if negb (bool_decide (key ∈ keys d))
          then raise (ConfigError (KeyNotFound key)) else ret tt : crun unit)
       (keys get_canonical_configs) = ret bs)
  /\ (exists bs,
        for_each
          (fun key =>
             if negb (bool_decide (key ∈ keys get_canonical_configs))
             then raise (ConfigError (InvalidKey key)) else ret tt : crun unit)
          (keys d) = ret bs).
Proof.
  intros ->. split; eexists; apply guard_loop_pass; intros x Hx;
    rewrite bool_decide_eq_true_2 by exact Hx; reflexivity.
Qed.

Lemma ssh_details (d : list (string * pyval)) (cm hid hun : pyval) :
  lookup "central_host_id" d = Some hid ->
  lookup "central_host_username" d = Some hun ->
  (if in_literal cm ["ssh"] then
     central_host_id <- getitem d "central_host_id" ;;
     if falsy central_host_id then ret true
     else
       central_host_username <- getitem d "central_host_username" ;;
       ret (falsy central_host_username)
   else ret false : crun bool)
  = ret (in_literal cm ["ssh"] && (falsy hid || falsy hun)).
Proof.
  intros Hid Hun. unfold getitem. rewrite Hid, Hun.
  destruct (in_literal cm ["ssh"]); [|reflexivity].
  rewrite bind_ret_l. destruct (falsy hid); [reflexivity|].
  rewrite bind_ret_l. reflexivity.
Qed.

Lemma ssh_guard (cm hid hun : pyval) :
  in_literal cm ["ssh"] && (falsy hid || falsy hun) = false
  <-> (in_literal cm ["ssh"] = true -> falsy hid = false /\ falsy hun = false).
Proof.
  destruct (in_literal cm ["ssh"]), (falsy hid), (falsy hun); cbn;
    split; auto; try discriminate; intros H; destruct (H eq_refl); discriminate.
Qed.

Lemma check_layout (n : string) (v1 v2 v3 v4 v5 v6 v7 v8 : pyval) :
  let c := {| project_name := n;
              data := canonical_layout v1 v2 v3 v4 v5 v6 v7 v8 |} in
  outcome (check_dict_values_raise_on_fail is_dir make_folders_ok c) = inr tt
  <-> outcome (check_config_types c) = inr tt
      /\ outcome (check_path c "local_path") = inr tt
      /\ outcome (check_path c "central_path") = inr tt
      /\ outcome (check_folder_above_project_name_exists is_dir c) = inr tt
      /\ (in_literal v3 ["ssh"] = true -> falsy v4 = false /\ falsy v5 = false)
      /\ make_folders_ok v1 = true.
Proof.
  intros c. unfold check_dict_values_raise_on_fail.
  destruct (present_keys_pass (data c) eq_refl) as [[bs1 H1] [bs2 H2]].
  rewrite H1, bind_ret_l, H2, bind_ret_l.
  rewrite bool_decide_eq_true_2 by reflexivity. cbn [negb].
  rewrite bind_inr. split.
  - intros [[] [Htypes H]]. rewrite bind_ret_l in H.
    pose proof Htypes as Hty. apply types_inr in Hty as (_ & _ & Hcm & _ & _ & _ & Htv & _).
    rewrite (getitem_some (data c) "connection_method" v3 eq_refl), bind_ret_l in H.
    rewrite Hcm in H. cbn [negb] in H. rewrite bind_ret_l in H.
    apply bind_inr in H as [us [Hpaths H]].
    cbn [for_each] in Hpaths.
    apply bind_inr in Hpaths as [[] [Hlocal Hpaths]].
    apply bind_inr in Hpaths as [us' [Hcentral' _]].
    apply bind_inr in Hcentral' as [[] [Hcentral _]].
    apply bind_inr in H as [[] [Hfolder H]].
    rewrite bind_ret_l in H.
    rewrite (ssh_details (data c) v3 v4 v5 eq_refl eq_refl), bind_ret_l in H.
    apply bind_inr in H as [[] [Hssh H]].
    apply guard_inr in Hssh.
    pose proof (proj1 (ssh_guard v3 v4 v5) Hssh) as Hdetails.
    rewrite (getitem_some (data c) "transfer_verbosity" v7 eq_refl), bind_ret_l in H.
    rewrite Htv in H. cbn [negb] in H. rewrite bind_ret_l in H.
    rewrite (getitem_some (data c) "local_path" v1 eq_refl), bind_ret_l in H.
    apply bind_inr in H as [[] [_ H]].
    destruct (make_folders_ok v1); [|discriminate H]. auto 10.
  - intros (Htypes & Hlocal & Hcentral & Hfolder & Hssh & Hmk).
    exists tt. split; [exact Htypes|]. rewrite bind_ret_l.
    pose proof Htypes as Hty. apply types_inr in Hty as (_ & _ & Hcm & _ & _ & _ & Htv & _).
    rewrite (getitem_some (data c) "connection_method" v3 eq_refl), bind_ret_l.
    rewrite Hcm. cbn [negb]. rewrite bind_ret_l.
    apply bind_inr. exists [tt; tt]. split.
    { cbn [for_each]. apply bind_inr. exists tt. split; [exact Hlocal|].
      apply bind_inr. exists [tt]. split; [|reflexivity].
      apply bind_inr. exists tt. split; [exact Hcentral | reflexivity]. }
    apply bind_inr. exists tt. split; [exact Hfolder|].
    rewrite bind_ret_l.
    rewrite (ssh_details (data c) v3 v4 v5 eq_refl eq_refl), bind_ret_l.
    apply bind_inr. exists tt. split.
    { apply guard_inr. apply (proj2 (ssh_guard v3 v4 v5)), Hssh. }
    rewrite (getitem_some (data c) "transfer_verbosity" v7 eq_refl), bind_ret_l.
    rewrite Htv. cbn [negb]. rewrite bind_ret_l.
    rewrite (getitem_some (data c) "local_path" v1 eq_refl), bind_ret_l.
    apply bind_inr. exists tt. split; [reflexivity|]. rewrite Hmk. reflexivity.
Qed.

End ConfigAccepted.

Section ConfigTheorems.

Import configs.

Variable is_dir : Path -> bool.
Variable make_folders_ok : pyval -> bool.

Lemma check_passes_layout (c : Configs) :
  outcome (check_dict_values_raise_on_fail is_dir make_folders_ok c) = inr tt ->
  keys (data c) = keys get_canonical_configs.
Proof.
  unfold check_dict_values_raise_on_fail. intros H.
  apply bind_inr in H as [? [_ H]].
  apply bind_inr in H as [? [_ H]].
  apply bind_inr in H as [? [_ H]].
  apply bind_inr in H as [? [Horder _]].
  destruct (bool_decide_reflect (keys (data c) = keys get_canonical_configs))
    as [Heq|Hne]; [exact Heq | discriminate Horder].
Qed.

Lemma in_two (s a b : string) : s ∈ [a; b] <-> s = a \/ s = b.
Proof. rewrite !elem_of_cons, elem_of_nil. tauto. Qed.

Lemma accepted_iff (n : string) (v1 v2 v3 v4 v5 v6 v7 v8 : pyval) :
  let c := {| project_name := n;
              data := canonical_layout v1 v2 v3 v4 v5 v6 v7 v8 |} in
  outcome (check_dict_values_raise_on_fail is_dir make_folders_ok c) = inr tt
  <-> config_accepted is_dir make_folders_ok c.
Proof.
  intros c. subst c.
  pose proof (check_layout is_dir make_folders_ok n v1 v2 v3 v4 v5 v6 v7 v8) as HL.
  cbn zeta in HL. rewrite HL. clear HL.
  rewrite types_inr, !check_path_inr, check_folder_inr.
  unfold config_accepted. cbn [data project_name lookup String.eqb Ascii.eqb Bool.eqb].
  split.
  - intros ((_ & _ & Hcm & Hid & Hun & Ho & Htv & Hs) & [lp [[= ->] Hlp]]
            & [cp [[= ->] Hcp]] & (lp' & cm' & [= <-] & Hdir & [= <-] & Hcentral)
            & Hssh & Hmk).
    apply in_literal_iff in Hcm as [cm [-> Hcm]]. apply in_two in Hcm.
    apply in_literal_iff in Htv as [tv [-> Htv]]. apply in_two in Htv.
    apply optional_str_iff in Hid, Hun.
    destruct v6 as [| |o| |]; try discriminate Ho.
    destruct v8 as [| |s| |]; try discriminate Hs.
    exists lp, cp, cm, v4, v5, o, tv, s.
    split; [reflexivity|]. split; [exact Hcm|]. split; [exact Hid|].
    split; [exact Hun|]. split; [exact Htv|]. split; [exact Hlp|].
    split; [exact Hcp|]. split; [exact Hdir|]. split; [|split; [|exact Hmk]].
    + intros ->. destruct (Hcentral eq_refl) as [cp' [[= <-] H]]. exact H.
    + intros ->. apply Hssh. reflexivity.
  - intros (lp & cp & cm & hid & hun & o & tv & s & Hdata & Hcm & Hid & Hun & Htv
            & Hlp & Hcp & Hdir & Hcentral & Hssh & Hmk).
    unfold canonical_layout in Hdata.
    injection Hdata as -> -> -> -> -> -> -> ->.
    split; [|split; [|split; [|split; [|split]]]].
    + split; [reflexivity|]. split; [reflexivity|].
      split; [apply in_literal_iff; exists cm; split; [reflexivity | apply in_two, Hcm]|].
      split; [apply optional_str_iff, Hid|]. split; [apply optional_str_iff, Hun|].
      split; [reflexivity|].
      split; [apply in_literal_iff; exists tv; split; [reflexivity | apply in_two, Htv] | reflexivity].
    + exists lp. auto.
    + exists cp. auto.
    + exists lp, (VStr cm). split; [reflexivity|]. split; [exact Hdir|].
      split; [reflexivity|]. intros Hfs. exists cp. split; [reflexivity|].
      apply Hcentral. apply in_literal_iff in Hfs as [s' [[= <-] Hs']].
      apply list_elem_of_singleton in Hs'. exact Hs'.
    + intros Hs'. apply Hssh. apply in_literal_iff in Hs' as [s' [[= <-] Hs']].
      apply list_elem_of_singleton in Hs'. exact Hs'.
    + exact Hmk.
Qed.

End ConfigTheorems.

(** X7. [check_dict_values_raise_on_fail] returns without an exception
    exactly for the configs that hold the eight canonical keys in the
    canonical order with values of their types, both paths as path objects
    (a path given as a string is not enough, although its type is allowed)
    whose posix form starts with neither [~] nor a dot and whose stem is the
    project name, an existing folder above the local path, and above the
    central path for the local file system, a host id and a user name that
    are not empty for ssh, and a project folder that can be made. *)
Theorem X7_config_check_accepts
    (is_dir : configs.Path -> bool) (make_folders_ok : configs.pyval -> bool)
    (c : configs.Configs) :
  outcome (configs.check_dict_values_raise_on_fail is_dir make_folders_ok c) = inr tt
  <-> config_accepted is_dir make_folders_ok c.
Proof.
  split.
  - intros H. pose proof (check_passes_layout _ _ _ H) as Hkeys.
    destruct (canonical_keys_layout _ Hkeys)
      as (v1 & v2 & v3 & v4 & v5 & v6 & v7 & v8 & Hdata).
    destruct c as [n d]. cbn [configs.data] in Hdata. subst d.
    apply (accepted_iff is_dir make_folders_ok n v1 v2 v3 v4 v5 v6 v7 v8), H.
  - intros H. pose proof H as (lp & cp & cm & hid & hun & o & tv & s & Hdata & _).
    destruct c as [n d]. cbn [configs.data] in Hdata. subst d.
    apply (accepted_iff is_dir make_folders_ok n
             (configs.VPath lp) (configs.VPath cp) (configs.VStr cm) hid hun
             (configs.VBool o) (configs.VStr tv) (configs.VBool s)), H.
Qed.

Section ConfigErrors.

Import configs.

Variable is_dir : Path -> bool.
Variable make_folders_ok : pyval -> bool.

Lemma getitem_error {V} (d : list (string * V)) key e :
  outcome (getitem d key) = inl e -> e = KeyError key.
Proof. unfold getitem. destruct (lookup key d); [discriminate | intros [= <-]; reflexivity]. Qed.

Lemma path_of_error v a e :
  outcome (path_of v a) = inl e -> e = AttributeError a.
Proof. destruct v; cbn; try discriminate; intros [= <-]; reflexivity. Qed.

Lemma guard_error (b : bool) (x e : raised) :
  outcome (if b then raise x else ret tt : crun unit) = inl e -> e = x.
Proof. destruct b; [intros [= <-]; reflexivity | discriminate]. Qed.

Lemma check_path_error (c : Configs) path_type e :
  outcome (check_path c path_type) = inl e -> ~ shadowed_error e.
Proof.
  unfold check_path, shadowed_error. intros H.
  apply bind_inl in H as [H|[v [_ H]]];
    [apply getitem_error in H; subst; intros [?|?]; discriminate|].
  apply bind_inl in H as [H|[p [_ H]]];
    [apply path_of_error in H; subst; intros [?|?]; discriminate|].
  apply bind_inl in H as [H|[[] [_ H]]].
  { destruct (as_posix p) as [|b s]; [injection H as <-; intros [?|?]; discriminate|].
    apply guard_error in H. subst. intros [?|?]; discriminate. }
  apply bind_inl in H as [H|[us [_ H]]].
  { destruct (guard_loop_outcome
                (E:=raised) (W:=string)
                (fun bad_start => Py.startswith bad_start (as_posix p))
                (fun _ => ConfigError (DotSyntax path_type)) ["."; "../"])
      as [[bs [Hok _]]|[x [Hfail _]]].
    - rewrite Hok in H. discriminate H.
    - rewrite Hfail in H. injection H as <-. intros [?|?]; discriminate. }
  apply guard_error in H. subst. intros [?|?]; discriminate.
Qed.

Lemma check_folder_error (c : Configs) e :
  outcome (check_folder_above_project_name_exists is_dir c) = inl e ->
  ~ shadowed_error e.
Proof.
  unfold check_folder_above_project_name_exists, shadowed_error. intros H.
  apply bind_inl in H as [H|[v [_ H]]];
    [apply getitem_error in H; subst; intros [?|?]; discriminate|].
  apply bind_inl in H as [H|[p [_ H]]];
    [apply path_of_error in H; subst; intros [?|?]; discriminate|].
  apply bind_inl in H as [H|[[] [_ H]]].
  { destruct (negb (is_dir (parent p))); [|discriminate H].
    apply bind_inl in H as [H|[cm [_ H]]];
      [apply getitem_error in H; subst; intros [?|?]; discriminate|].
    injection H as <-. intros [?|?]; discriminate. }
  apply bind_inl in H as [H|[cm [_ H]]];
    [apply getitem_error in H; subst; intros [?|?]; discriminate|].
  destruct (in_literal cm ["local_filesystem"]); [|discriminate H].
  apply bind_inl in H as [H|[v' [_ H]]];
    [apply getitem_error in H; subst; intros [?|?]; discriminate|].
  apply bind_inl in H as [H|[p' [_ H]]];
    [apply path_of_error in H; subst; intros [?|?]; discriminate|].
  apply guard_error in H. subst. intros [?|?]; discriminate.
Qed.

Lemma check_types_error (c : Configs) e :
  outcome (check_config_types c) = inl e -> ~ shadowed_error e.
Proof.
  unfold check_config_types, shadowed_error. intros H.
  apply bind_inl in H as [H|[? [_ H]]]; [|discriminate H].
  induction (keys (data c)) as [|key ks IH]; [discriminate H|].
  cbn [for_each] in H.
  apply bind_inl in H as [H|[[] [_ H]]].
  - apply bind_inl in H as [H|[t [_ H]]];
      [apply getitem_error in H; subst; intros [?|?]; discriminate|].
    apply bind_inl in H as [H|[v [_ H]]];
      [apply getitem_error in H; subst; intros [?|?]; discriminate|].
    destruct t; apply guard_error in H; subst; intros [?|?]; discriminate.
  - apply bind_inl in H as [H|[? [_ H]]]; [apply IH, H | discriminate H].
Qed.

End ConfigErrors.

(** X8. Two of the errors of [check_dict_values_raise_on_fail] are never
    raised, whatever the config: the connection method and the transfer
    verbosity have been checked against the same options by the type check
    before, which raises its own error for them. *)
Theorem X8_shadowed_errors_never_raised
    (is_dir : configs.Path -> bool) (make_folders_ok : configs.pyval -> bool)
    (c : configs.Configs) :
  outcome (configs.check_dict_values_raise_on_fail is_dir make_folders_ok c)
  <> inl (configs.ConfigError configs.BadConnectionMethod)
  /\ outcome (configs.check_dict_values_raise_on_fail is_dir make_folders_ok c)
     <> inl (configs.ConfigError configs.BadTransferVerbosity).
Proof.
  assert (Hnever : forall e,
    outcome (configs.check_dict_values_raise_on_fail is_dir make_folders_ok c) = inl e ->
    ~ shadowed_error e).
  { intros e H. unfold configs.check_dict_values_raise_on_fail in H.
    apply bind_inl in H as [H|[? [_ H]]].
    { destruct (guard_loop_outcome
                  (E:=configs.raised) (W:=string)
                  (fun key => negb (bool_decide (key ∈ configs.keys (configs.data c))))
                  (fun key => configs.ConfigError (configs.KeyNotFound key))
                  (configs.keys configs.get_canonical_configs))
        as [[bs [Hok _]]|[bad [Hfail _]]].
      - rewrite Hok in H. discriminate H.
      - rewrite Hfail in H. injection H as <-. intros [?|?]; discriminate. }
    apply bind_inl in H as [H|[? [_ H]]].
    { destruct (guard_loop_outcome
                  (E:=configs.raised) (W:=string)
                  (fun key => negb (bool_decide
                                      (key ∈ configs.keys configs.get_canonical_configs)))
                  (fun key => configs.ConfigError (configs.InvalidKey key))
                  (configs.keys (configs.data c)))
        as [[bs [Hok _]]|[bad [Hfail _]]].
      - rewrite Hok in H. discriminate H.
      - rewrite Hfail in H. injection H as <-. intros [?|?]; discriminate. }
    apply bind_inl in H as [H|[[] [Htypes H]]]; [apply check_types_error in H; exact H|].
    apply bind_inl in H as [H|[[] [Horder H]]].
    { apply guard_error in H. subst. intros [?|?]; discriminate. }
    apply guard_inr in Horder. apply negb_false_iff, bool_decide_eq_true in Horder.
    destruct (canonical_keys_layout _ Horder)
      as (v1 & v2 & v3 & v4 & v5 & v6 & v7 & v8 & Hdata).
    destruct c as [n d]. cbn [configs.data] in *. subst d.
    pose proof Htypes as Hty.
    apply types_inr in Hty as (_ & _ & Hcm & _ & _ & _ & Htv & _).
    set (cfg := {| configs.project_name := n;
                   configs.data := canonical_layout v1 v2 v3 v4 v5 v6 v7 v8 |}) in *.
    rewrite (getitem_some (canonical_layout v1 v2 v3 v4 v5 v6 v7 v8) "connection_method" v3 eq_refl),
      bind_ret_l in H.
    rewrite Hcm in H. cbn [negb] in H. rewrite bind_ret_l in H.
    apply bind_inl in H as [H|[? [_ H]]].
    { cbn [for_each] in H.
      apply bind_inl in H as [H|[[] [_ H]]]; [apply check_path_error in H; exact H|].
      apply bind_inl in H as [H|[? [_ H]]]; [|discriminate H].
      apply bind_inl in H as [H|[[] [_ H]]]; [apply check_path_error in H; exact H|].
      discriminate H. }
    apply bind_inl in H as [H|[[] [_ H]]]; [apply check_folder_error in H; exact H|].
    rewrite bind_ret_l in H.
    rewrite (ssh_details (canonical_layout v1 v2 v3 v4 v5 v6 v7 v8) v3 v4 v5 eq_refl eq_refl), bind_ret_l in H.
    apply bind_inl in H as [H|[[] [_ H]]].
    { apply guard_error in H. subst. intros [?|?]; discriminate. }
    rewrite (getitem_some (canonical_layout v1 v2 v3 v4 v5 v6 v7 v8) "transfer_verbosity" v7 eq_refl),
      bind_ret_l in H.
    rewrite Htv in H. cbn [negb] in H. rewrite bind_ret_l in H.
    rewrite (getitem_some (canonical_layout v1 v2 v3 v4 v5 v6 v7 v8) "local_path" v1 eq_refl), bind_ret_l in H.
    apply bind_inl in H as [H|[[] [_ H]]]; [discriminate H|].
    destruct (make_folders_ok v1); [discriminate H|].
    injection H as <-. intros [?|?]; discriminate. }
  split; intros H; apply (Hnever _ H); [left | right]; reflexivity.
Qed.

(** X9. A canonical key that is missing from the config is reported before
    anything else is looked at: the error names the first canonical key that
    is missing. When no canonical key is missing, a key that is not canonical
    is reported next: the error names the first such key of the config. *)
Theorem X9_config_key_errors
    (is_dir : configs.Path -> bool) (make_folders_ok : configs.pyval -> bool)
    (c : configs.Configs) :
  ((exists k, k ∈ configs.keys configs.get_canonical_configs
              /\ k ∉ configs.keys (configs.data c)) ->
   exists before k after,
     configs.keys configs.get_canonical_configs = before ++ k :: after
     /\ (forall k', k' ∈ before -> k' ∈ configs.keys (configs.data c))
     /\ (k ∉ configs.keys (configs.data c))
     /\ (configs.check_dict_values_raise_on_fail is_dir make_folders_ok c
         = raise (configs.ConfigError (configs.KeyNotFound k))))
  /\ ((forall k, k ∈ configs.keys configs.get_canonical_configs ->
                 k ∈ configs.keys (configs.data c)) ->
      (exists k, k ∈ configs.keys (configs.data c)
                 /\ k ∉ configs.keys configs.get_canonical_configs) ->
      exists before k after,
        configs.keys (configs.data c) = before ++ k :: after
        /\ (forall k', k' ∈ before ->
                       k' ∈ configs.keys configs.get_canonical_configs)
        /\ (k ∉ configs.keys configs.get_canonical_configs)
        /\ (configs.check_dict_values_raise_on_fail is_dir make_folders_ok c
            = raise (configs.ConfigError (configs.InvalidKey k)))).
Proof.
  split.
  - intros [k [Hk Hmissing]].
    destruct (first_true
                (fun key => negb (bool_decide (key ∈ configs.keys (configs.data c))))
                (configs.keys configs.get_canonical_configs))
      as (before & k' & after & Hsplit & Hbefore & Hk').
    { exists k. split; [exact Hk|]. rewrite bool_decide_eq_false_2 by exact Hmissing.
      reflexivity. }
    exists before, k', after. split; [exact Hsplit|]. split; [|split].
    + intros y Hy. specialize (Hbefore y Hy).
      apply negb_false_iff, bool_decide_eq_true in Hbefore. exact Hbefore.
    + apply negb_true_iff, bool_decide_eq_false in Hk'. exact Hk'.
    + unfold configs.check_dict_values_raise_on_fail. cbn zeta. rewrite Hsplit.
      rewrite (guard_loop_fail
                 (fun key => negb (bool_decide (key ∈ configs.keys (configs.data c))))
                 (fun key => configs.ConfigError (configs.KeyNotFound key))
                 before after k' Hbefore Hk').
      reflexivity.
  - intros Hall [k [Hk Hextra]].
    destruct (first_true
                (fun key => negb (bool_decide
                                    (key ∈ configs.keys configs.get_canonical_configs)))
                (configs.keys (configs.data c)))
      as (before & k' & after & Hsplit & Hbefore & Hk').
    { exists k. split; [exact Hk|]. rewrite bool_decide_eq_false_2 by exact Hextra.
      reflexivity. }
    exists before, k', after. split; [exact Hsplit|]. split; [|split].
    + intros y Hy. specialize (Hbefore y Hy).
      apply negb_false_iff, bool_decide_eq_true in Hbefore. exact Hbefore.
    + apply negb_true_iff, bool_decide_eq_false in Hk'. exact Hk'.
    + unfold configs.check_dict_values_raise_on_fail. cbn zeta.
      rewrite (guard_loop_pass
                 (fun key => negb (bool_decide (key ∈ configs.keys (configs.data c))))
                 (fun key => configs.ConfigError (configs.KeyNotFound key))).
      2:{ intros y Hy. rewrite bool_decide_eq_true_2 by (apply Hall, Hy). reflexivity. }
      rewrite bind_ret_l, Hsplit.
      rewrite (guard_loop_fail
                 (fun key => negb (bool_decide
                                     (key ∈ configs.keys configs.get_canonical_configs)))
                 (fun key => configs.ConfigError (configs.InvalidKey key))
                 before after k' Hbefore Hk').
      reflexivity.
Qed.

(** X10. A config that holds exactly the canonical keys, with values of
    their types, but not in the canonical order is refused for the order of
    its keys. *)
Theorem X10_config_wrong_order
    (is_dir : configs.Path -> bool) (make_folders_ok : configs.pyval -> bool)
    (c : configs.Configs) :
  configs.keys (configs.data c) ≡ₚ configs.keys configs.get_canonical_configs ->
  configs.keys (configs.data c) <> configs.keys configs.get_canonical_configs ->
  outcome (configs.check_config_types c) = inr tt ->
  outcome (configs.check_dict_values_raise_on_fail is_dir make_folders_ok c)
  = inl (configs.ConfigError configs.WrongOrder).
Proof.
  intros Hperm Hne Htypes.
  unfold configs.check_dict_values_raise_on_fail. cbn zeta.
  rewrite (guard_loop_pass
             (fun key => negb (bool_decide (key ∈ configs.keys (configs.data c))))
             (fun key => configs.ConfigError (configs.KeyNotFound key))).
  2:{ intros y Hy. rewrite bool_decide_eq_true_2; [reflexivity|].
      rewrite Hperm. exact Hy. }
  rewrite bind_ret_l.
  rewrite (guard_loop_pass
             (fun key => negb (bool_decide
                                 (key ∈ configs.keys configs.get_canonical_configs)))
             (fun key => configs.ConfigError (configs.InvalidKey key))).
  2:{ intros y Hy. rewrite bool_decide_eq_true_2; [reflexivity|].
      rewrite <- Hperm. exact Hy. }
  rewrite bind_ret_l, outcome_bind, Htypes, outcome_bind.
  rewrite bool_decide_eq_false_2 by exact Hne. reflexivity.
Qed.

Lemma X10_config_wrong_order_witness :
  outcome
    (configs.check_dict_values_raise_on_fail (fun _ => true) (fun _ => true)
       {| configs.project_name := "project";
          configs.data :=
            [ ("central_path",
               configs.VPath {| configs.anchor := "/"; configs.parts := ["central"; "project"] |});
              ("local_path",
               configs.VPath {| configs.anchor := "/"; configs.parts := ["local"; "project"] |});
              ("connection_method", configs.VStr "local_filesystem");
              ("central_host_id", configs.VNone);
              ("central_host_username", configs.VNone);
              ("overwrite_old_files", configs.VBool false);
              ("transfer_verbosity", configs.VStr "v");
              ("show_transfer_progress", configs.VBool true) ] |})
  = inl (configs.ConfigError configs.WrongOrder).
Proof.
  apply X10_config_wrong_order.
  - cbn. apply perm_swap.
  - cbn. intros H. discriminate H.
  - vm_compute. reflexivity.
Defined.

Section StemFacts.

Import configs.

Lemma slice_to_append a : forall t, Py.slice_to (Py.len a) (a +:+ t) = a.
Proof.
  induction a as [|x a IH]; intros t.
  - destruct t; reflexivity.
  - rewrite append_cons. unfold Py.slice_to, Py.len in *. simpl. rewrite IH. reflexivity.
Qed.

Lemma rfind_from_app c a : forall t i found,
  rfind_from c (a +:+ t) i found
  = rfind_from c t (i + Py.len a) (rfind_from c a i found).
Proof.
  induction a as [|x a IH]; intros t i found.
  - rewrite append_nil_l. cbn [rfind_from]. unfold Py.len. simpl.
    rewrite Nat.add_0_r. reflexivity.
  - rewrite append_cons. cbn [rfind_from]. rewrite IH.
    unfold Py.len. simpl. rewrite Nat.add_succ_r. reflexivity.
Qed.

Lemma rfind_from_free c b : forall i found,
  free_of c b = true -> rfind_from c b i found = found.
Proof.
  induction b as [|x b IH]; intros i found Hb; [reflexivity|].
  rewrite free_of_cons in Hb. apply andb_prop in Hb as [Hx Hb].
  cbn [rfind_from]. destruct (Ascii.eqb x c); [discriminate Hx | apply IH, Hb].
Qed.

(** The stem of a name with a suffix is the name without the suffix. *)
Lemma stem_with_suffix (a b : string) :
  a <> "" -> b <> "" -> free_of "." b = true ->
  stem_of_name (a +:+ "." +:+ b) = a.
Proof.
  intros Ha Hb Hfree. unfold stem_of_name, rfind.
  rewrite rfind_from_app. cbn [Nat.add].
  change ("." +:+ b) with (String "." b). cbn [rfind_from Ascii.eqb Bool.eqb].
  rewrite rfind_from_free by exact Hfree.
  assert (Hlen : (0 <? Py.len a)%nat && (Py.len a <? Py.len (a +:+ String "." b) - 1)%nat
                 = true).
  { rewrite len_append. apply andb_true_intro. split; apply Nat.ltb_lt.
    - destruct a; [congruence | unfold Py.len; simpl; lia].
    - destruct b; [congruence | unfold Py.len; simpl; lia]. }
  rewrite Hlen. apply slice_to_append.
Qed.

Lemma suffix_changes_name (a b : string) : a <> a +:+ "." +:+ b.
Proof.
  intros H. apply (f_equal Py.len) in H. rewrite !len_append in H.
  change (Py.len ".") with 1%nat in H. lia.
Qed.

End StemFacts.

(** X11. A project whose name ends in a suffix (a dot strictly inside, as
    in [my.project]) cannot use a folder that is called like the project:
    the stem of such a path drops the suffix, so the path is refused as not
    ending in the project name, and the check of the config never passes. *)
Theorem X11_project_name_with_suffix
    (is_dir : configs.Path -> bool) (make_folders_ok : configs.pyval -> bool)
    (c : configs.Configs) (lp : configs.Path) (a b : string) :
  a <> "" -> b <> "" -> free_of "." b = true ->
  configs.project_name c = a +:+ "." +:+ b ->
  configs.lookup "local_path" (configs.data c) = Some (configs.VPath lp) ->
  configs.name lp = configs.project_name c ->
  configs.stem lp = a
  /\ outcome (configs.check_dict_values_raise_on_fail is_dir make_folders_ok c)
     <> inr tt
  /\ (configs.as_posix lp <> "" ->
      Py.startswith "~" (configs.as_posix lp) = false ->
      Py.startswith "." (configs.as_posix lp) = false ->
      outcome (configs.check_path c "local_path")
      = inl (configs.ConfigError (configs.NotProjectName "local_path"))).
Proof.
  intros Ha Hb Hfree Hname Hlookup Hlast.
  assert (Hstem : configs.stem lp = a).
  { unfold configs.stem. rewrite Hlast, Hname. apply stem_with_suffix; assumption. }
  assert (Hne : configs.stem lp <> configs.project_name c).
  { rewrite Hstem, Hname. apply suffix_changes_name. }
  split; [exact Hstem|]. split.
  - intros Hpass. apply X7_config_check_accepts in Hpass.
    destruct Hpass as (lp' & cp & cm & hid & hun & o & tv & s & Hdata & _ & _ & _ & _
                       & (_ & _ & _ & Hs) & _).
    rewrite Hdata in Hlookup. injection Hlookup as ->. contradiction.
  - intros Hposix Htilde Hdot.
    destruct (outcome (configs.check_path c "local_path")) as [e|[]] eqn:Hout.
    + unfold configs.check_path, configs.getitem in Hout.
      rewrite Hlookup, bind_ret_l in Hout. cbn [configs.path_of] in Hout.
      rewrite bind_ret_l in Hout.
      destruct (configs.as_posix lp) as [|x s] eqn:Hp; [congruence|].
      rewrite tilde_first in Htilde. rewrite Htilde, bind_ret_l in Hout.
      cbn [for_each] in Hout.
      rewrite Hdot, bind_ret_l, (dot_then_dotdot _ Hdot), !bind_ret_l in Hout.
      destruct (String.eqb_spec (configs.stem lp) (configs.project_name c));
        [contradiction|].
      cbn in Hout. congruence.
    + apply check_path_inr in Hout as [p [Hp (_ & _ & _ & Hs)]].
      rewrite Hlookup in Hp. injection Hp as <-. contradiction.
Qed.

Lemma X11_project_name_with_suffix_witness :
  outcome
    (configs.check_path
       {| configs.project_name := "my.project";
          configs.data :=
            [ ("local_path",
               configs.VPath {| configs.anchor := "/";
                                configs.parts := ["data"; "my.project"] |}) ] |}
       "local_path")
  = inl (configs.ConfigError (configs.NotProjectName "local_path")).
Proof.
  refine (proj2 (proj2
            (X11_project_name_with_suffix (fun _ => true) (fun _ => true)
               {| configs.project_name := "my.project";
                  configs.data :=
                    [ ("local_path",
                       configs.VPath {| configs.anchor := "/";
                                        configs.parts := ["data"; "my.project"] |}) ] |}
               {| configs.anchor := "/"; configs.parts := ["data"; "my.project"] |}
               "my" "project" _ _ _ _ _ _)) _ _ _);
    try reflexivity; discriminate.
Defined.

Section SshFacts.

Import configs.

Lemma check_folder_independent (is_dir is_dir' : Path -> bool)
    (c : Configs) (lp : Path) (cm : pyval) :
  lookup "local_path" (data c) = Some (VPath lp) ->
  lookup "connection_method" (data c) = Some cm ->
  in_literal cm ["local_filesystem"] = false ->
  is_dir (parent lp) = is_dir' (parent lp) ->
  check_folder_above_project_name_exists is_dir c
  = check_folder_above_project_name_exists is_dir' c.
Proof.
  intros Hlp Hcm Hfs Hsame. unfold check_folder_above_project_name_exists, getitem.
  rewrite Hlp, Hcm, !bind_ret_l. cbn [path_of]. rewrite !bind_ret_l, Hsame, Hfs.
  reflexivity.
Qed.

End SshFacts.

(** X12. When the connection is not by the local file system (for ssh),
    the check of a config never looks at the folder above the central path:
    two file systems that agree on the folder above the local path give the
    same result, warnings and error included. *)
Theorem X12_central_not_checked_for_ssh
    (is_dir is_dir' : configs.Path -> bool)
    (make_folders_ok : configs.pyval -> bool)
    (c : configs.Configs) (lp : configs.Path) (cm : configs.pyval) :
  configs.lookup "local_path" (configs.data c) = Some (configs.VPath lp) ->
  configs.lookup "connection_method" (configs.data c) = Some cm ->
  cm <> configs.VStr "local_filesystem" ->
  is_dir (configs.parent lp) = is_dir' (configs.parent lp) ->
  configs.check_dict_values_raise_on_fail is_dir make_folders_ok c
  = configs.check_dict_values_raise_on_fail is_dir' make_folders_ok c.
Proof.
  intros Hlp Hcm Hne Hsame. unfold configs.check_dict_values_raise_on_fail.
  rewrite (check_folder_independent is_dir is_dir' c lp cm Hlp Hcm); [reflexivity| |exact Hsame].
  destruct (configs.in_literal cm ["local_filesystem"]) eqn:Hfs; [|reflexivity].
  apply in_literal_iff in Hfs as [s [-> Hs]].
  apply list_elem_of_singleton in Hs. subst s. congruence.
Qed.

Lemma X12_central_not_checked_for_ssh_witness :
  configs.check_dict_values_raise_on_fail only_local (fun _ => true) ssh_config
  = configs.check_dict_values_raise_on_fail (fun _ => true) (fun _ => true) ssh_config.
Proof.
  apply (X12_central_not_checked_for_ssh only_local (fun _ => true) (fun _ => true)
           ssh_config
           {| configs.anchor := "/"; configs.parts := ["local"; "project"] |}
           (configs.VStr "ssh")).
  - reflexivity.
  - reflexivity.
  - discriminate.
  - vm_compute. reflexivity.
Defined.

(** With ssh the config is accepted although the folder above the central
    path does not exist. *)
Example ssh_config_is_accepted :
  configs.check_dict_values_raise_on_fail only_local (fun _ => true) ssh_config
  = warn "Making project folder at: /local/project".
Proof. vm_compute. reflexivity. Qed.

(** A path given as a string passes the check of the types and then fails
    for want of the method [as_posix]. *)
Example str_path_raises_attribute_error :
  outcome
    (configs.check_dict_values_raise_on_fail only_local (fun _ => true)
       {| configs.project_name := "project";
          configs.data :=
            canonical_layout (configs.VStr "/local/project")
              (configs.VStr "/nowhere/project")
              (configs.VStr "ssh") (configs.VStr "host") (configs.VStr "user")
              (configs.VBool false) (configs.VStr "v") (configs.VBool true) |})
  = inl (configs.AttributeError "as_posix").
Proof. vm_compute. reflexivity. Qed.
